(** * p-kit: probabilistic circuits and the Camsari-Sutton-Datta solver

    A shallow embedding of
    - [p_kit/solver/csd_solver.py]  (class [CaSuDaSolver], method [solve]);
    - [p_kit/psl/decorators.py]     (decorators [module] and [pcircuit]).

    Numbers.  The solver computes with Python floats through NumPy.  The
    embedding reads every float as a real number of [R] and every NumPy
    primitive ([np.sign], [np.exp], [np.arctanh], [np.dot], [np.multiply]) as
    the mathematical function it implements; rounding, overflow and underflow
    of binary64 are outside the model.  In particular the real [exp] is
    never 0 and is strictly increasing, while [np.exp] in binary64 returns
    exactly 0.0 below about -745 and rounds to 1.0 near 0: what depends on
    that difference (the range of the survival value, its strict
    monotonicity, exact identities between rounded sums) is not stated
    here.

    Randomness.  [random.random()] is read from a tape of draws, one cell per
    call; the generator state is the tape together with a read position.

    Exceptions.  Code that can raise returns a [result]. *)

From Stdlib Require Import String Reals Lra Lia ZArith Bool List.
Import ListNotations.

Set Implicit Arguments.
Set Warnings "-register-all,-abstract-large-number".

(* ================================================================== *)
(** * Part I.  The embedding                                           *)
(* ================================================================== *)

(** ** Python runtime *)

Module Py.

(** The exceptions the modelled code can raise. *)
Inductive exn : Type :=
| IndexError      (* sequence index out of range *)
| ValueError.     (* [np.dot]: shapes not aligned *)

Inductive result (A : Type) : Type :=
| Ok (a : A)
| Raise (e : exn).
Arguments Raise {A} e.

(** The state of the module-level generator of [random]. *)
Record rng : Type := mkRng { tape : nat -> R; pos : nat }.

(** Computations that read the generator and may raise. *)
Definition M (A : Type) : Type := rng -> result (A * rng).

Definition ret {A} (a : A) : M A := fun g => Ok (a, g).

Definition bind {A B} (m : M A) (k : A -> M B) : M B :=
  fun g => match m g with
           | Ok (a, g') => k a g'
           | Raise e => Raise e
           end.

Definition lift {A} (r : result A) : M A :=
  fun g => match r with
           | Ok a => Ok (a, g)
           | Raise e => Raise e
           end.

(** [random()]: the next cell of the tape. *)
Definition random : M R :=
  fun g => Ok (tape g (pos g), {| tape := tape g; pos := S (pos g) |}).

(** [l[i]] for a list or a one-dimensional array, [0 <= i]. *)
Definition getitem {A} (l : list A) (i : nat) : result A :=
  match nth_error l i with
  | Some a => Ok a
  | None => Raise IndexError
  end.

(** [l[i] = v] on a list. *)
Fixpoint setitem {A} (l : list A) (i : nat) (v : A) : result (list A) :=
  match l, i with
  | [], _ => Raise IndexError
  | _ :: l', O => Ok (v :: l')
  | x :: l', S i' =>
      match setitem l' i' v with
      | Ok l'' => Ok (x :: l'')
      | Raise e => Raise e
      end
  end.

(** [[f x for x in l]], elements evaluated left to right. *)
Fixpoint comprehension {A B} (f : A -> M B) (l : list A) : M (list B) :=
  match l with
  | [] => ret []
  | x :: l' =>
      bind (f x) (fun y =>
      bind (comprehension f l') (fun ys => ret (y :: ys)))
  end.

(** [for run in range(k): st = body(run, st)], counting from [run]. *)
Fixpoint for_range {St} (run k : nat) (body : nat -> St -> M St) (st : St)
  : M St :=
  match k with
  | O => ret st
  | S k' => bind (body run st) (for_range (S run) k' body)
  end.

End Py.

Declare Scope py_scope.
Delimit Scope py_scope with py.
Notation "x <- m ;; k" := (Py.bind m (fun x => k))
  (at level 61, m at next level, right associativity) : py_scope.
Notation "x <~ r ;; k" := (Py.bind (Py.lift r) (fun x => k))
  (at level 61, r at next level, right associativity) : py_scope.

(** ** The NumPy primitives used by the solver *)

Module Numpy.
Import Py.
Local Open Scope R_scope.

(** [np.sign]: -1, 0 or 1. *)
Definition sign (x : R) : R :=
  match total_order_T x 0 with
  | inleft (left _) => -1
  | inleft (right _) => 0
  | inright _ => 1
  end.

(** [np.arctanh], the inverse hyperbolic tangent, for an argument in the
    open interval (-1, 1). *)
Definition arctanh (x : R) : R := / 2 * ln ((1 + x) / (1 - x)).

Fixpoint sum_products (a b : list R) : R :=
  match a, b with
  | x :: a', y :: b' => x * y + sum_products a' b'
  | _, _ => 0
  end.

(** [np.dot(a, b)] for two one-dimensional operands. *)
Definition dot (a b : list R) : result R :=
  if Nat.eqb (length a) (length b) then Ok (sum_products a b)
  else Raise ValueError.

(** A two-dimensional array, as the list of its rows; the list without rows
    is the array of shape (0, 0). *)
Definition matrix : Type := list (list R).

Definition column (A : matrix) (j : nat) : list R :=
  map (fun row => nth j row 0) A.

Definition ncols (A : matrix) : nat :=
  match A with
  | [] => O
  | row :: _ => length row
  end.

(** [np.dot(a, A)] for a one-dimensional [a] and a two-dimensional [A]:
    entry [j] is the sum over [i] of [a[i] * A[i][j]]. *)
Definition vecmat (a : list R) (A : matrix) : result (list R) :=
  if Nat.eqb (length a) (length A)
  then Ok (map (fun j => sum_products a (column A j)) (seq 0 (ncols A)))
  else Raise ValueError.

End Numpy.

(** ** [p_kit/solver/csd_solver.py] *)

Module Solver.
Import Py Numpy.
Local Open Scope R_scope.
Local Open Scope py_scope.

(** Modelled from the spec: the class [PCircuit] of
    [p_kit/psl/p_circuit.py], which is not among the sources.  [solve] reads
    three attributes of it: the unit count, the coupling matrix, one row per
    unit, and the bias vector, one entry per unit, as in
    [examples/2_1_mux.py]. *)
Record PCircuit : Type := mkPCircuit {
  n_pbits : nat;
  J : matrix;
  h : list R
}.

(** Modelled from the spec: the fields that the base class [Solver] of
    [p_kit/solver/base_solver.py], which is not among the sources, gives the
    solver: the number of steps, the time increment, the gain and the
    expected mean. *)
Record CaSuDaSolver : Type := mkSolver {
  Nt : nat;
  dt : R;
  i0 : R;
  expected_mean : R
}.

(** The variables carried around the loop: [m], [all_I], [all_m], [E]. *)
Definition loop_state : Type :=
  (list R * list (list R) * list (list R) * list R)%type.

(** Line 19. *)
Definition initial_m (indices : list nat) : M (list R) :=
  comprehension (fun _ => u <- random ;; ret (sign (0.5 - u))) indices.

(** Line 24. *)
Definition input_biases (self : CaSuDaSolver) (c : PCircuit)
    (indices : list nat) (m : list R) : M (list R) :=
  comprehension
    (fun i =>
       row <~ getitem (J c) i ;;
       d <~ dot m row ;;
       hi <~ getitem (h c) i ;;
       ret (i0 self * (d + hi)))
    indices.

(** Lines 27 to 31.  [exp] is the real exponential, see the head of the
    file: the binary64 results 0.0 and 1.0 of line 29 are not represented. *)
Definition apply_S (self : CaSuDaSolver) (indices : list nat)
    (m I : list R) : M (list R) :=
  let threshold := arctanh (expected_mean self) in
  comprehension
    (fun i =>
       mi <~ getitem m i ;;
       Ii <~ getitem I i ;;
       ret (exp (-1 * dt self * exp (-1 * mi * (Ii + threshold)))))
    indices.

(** Line 34. *)
Definition new_output (indices : list nat) (m s : list R) : M (list R) :=
  comprehension
    (fun i =>
       mi <~ getitem m i ;;
       si <~ getitem s i ;;
       v <- random ;;
       ret (mi * sign (si - v)))
    indices.

(** Lines 39 to 41. *)
Definition energy_of (self : CaSuDaSolver) (c : PCircuit) (m : list R)
  : M R :=
  mh <~ dot m (h c) ;;
  mJ <~ vecmat m (J c) ;;
  mJm <~ dot mJ m ;;
  ret (i0 self * (mh + 0.5 * mJm)).

(** The body of [for run in range(self.Nt)]. *)
Definition loop_body (self : CaSuDaSolver) (c : PCircuit)
    (indices : list nat) (run : nat) (st : loop_state) : M loop_state :=
  let '(m, all_I, all_m, E) := st in
  I <- input_biases self c indices m ;;
  s <- apply_S self indices m I ;;
  m <- new_output indices m s ;;
  all_I <~ setitem all_I run I ;;
  all_m <~ setitem all_m run m ;;
  e <- energy_of self c m ;;
  E <~ setitem E run e ;;
  ret (m, all_I, all_m, E).

(** [CaSuDaSolver.solve].  The cells of [all_I] and [all_m] start as one
    shared empty list; the loop replaces each cell and mutates none, so the
    sharing is not observable. *)
Definition solve (self : CaSuDaSolver) (c : PCircuit)
  : M (list (list R) * list (list R) * list R) :=
  let n_pbits := n_pbits c in
  let indices := seq 0 n_pbits in
  let all_I := repeat [] (Nt self) in
  let all_m := repeat [] (Nt self) in
  let E := repeat 0 (Nt self) in
  m <- initial_m indices ;;
  st <- for_range 0 (Nt self) (loop_body self c indices)
          (m, all_I, all_m, E) ;;
  let '(_, all_I, all_m, E) := st in
  ret (all_I, all_m, E).

(** A circuit as the data model has it: [J] is [n] by [n] and [h] has
    length [n]. *)
Definition well_shaped (c : PCircuit) : bool :=
  Nat.eqb (length (J c)) (n_pbits c)
  && forallb (fun row => Nat.eqb (length row) (n_pbits c)) (J c)
  && Nat.eqb (length (h c)) (n_pbits c).

End Solver.

(** ** Python objects for [p_kit/psl/decorators.py] *)

Module Obj.
Local Open Scope string_scope.

(** A [dict]: keys in insertion order, no key twice. *)
Definition dict (V : Type) : Type := list (string * V).

Fixpoint dict_get {V} (d : dict V) (k : string) : option V :=
  match d with
  | [] => None
  | (k', v) :: d' => if String.eqb k' k then Some v else dict_get d' k
  end.

(** [d[k] = v]: an existing key keeps its place, a new key goes last. *)
Fixpoint dict_set {V} (d : dict V) (k : string) (v : V) : dict V :=
  match d with
  | [] => [(k, v)]
  | (k', v') :: d' =>
      if String.eqb k' k then (k', v) :: d' else (k', v') :: dict_set d' k v
  end.

(** [{k: v for k, v in items}]. *)
Definition dict_of {V} (items : list (string * V)) : dict V :=
  fold_left (fun d kv => dict_set d (fst kv) (snd kv)) items [].

Definition keys {V} (d : dict V) : list string := map fst d.
Definition values {V} (d : dict V) : list V := map snd d.

(** No string occurs twice. *)
Fixpoint distinct (l : list string) : bool :=
  match l with
  | [] => true
  | x :: l' => negb (existsb (String.eqb x) l') && distinct l'
  end.

(** [enumerate(l)]. *)
Definition enumerate {A} (l : list A) : list (nat * A) :=
  combine (seq 0 (length l)) l.

(** An array of NumPy: its [shape] tuple and its entries in row-major
    order. *)
Record ndarray : Type := mkArray { shape : list Z; data : list R }.

Definition size (sh : list Z) : nat :=
  Z.to_nat (fold_right Z.mul 1%Z sh).

(** [np.zeros(sh)]. *)
Definition zeros (sh : list Z) : ndarray :=
  {| shape := sh; data := repeat 0%R (size sh) |}.

(** Equality of two shape tuples. *)
Fixpoint shape_eqb (a b : list Z) : bool :=
  match a, b with
  | [], [] => true
  | x :: a', y :: b' => Z.eqb x y && shape_eqb a' b'
  | _, _ => false
  end.

(** Modelled from the spec: the class [Port] of [p_kit/psl/context.py],
    which is not among the sources.  A port has a [name], the owning instance
    ([circuit], by object identity) and an [index]; the last two are unset on
    a port that was only declared in a class body. *)
Record Port : Type := mkPort {
  name : string;
  circuit : option nat;
  index : option nat
}.

(** The Python values that occur as class and instance attributes. *)
Inductive value : Type :=
| VInt (z : Z)
| VArray (a : ndarray)
| VPort (p : Port)
| VDict                                   (* an empty [dict] *)
| VContext (loc : nat)                    (* a [ModuleContext], by reference *)
| VOther                                  (* an object with no attribute read here *)
| VObject (id : nat) (attrs : list (string * value)).

(** [hasattr(v, a)].  Only an instance with an attribute dictionary
    answers yes: the attributes asked for are [n_pbits], [J] and [h], which
    integers, arrays, ports, dicts and contexts do not have. *)
Definition hasattr (v : value) (a : string) : bool :=
  match v with
  | VObject _ attrs =>
      match dict_get attrs a with Some _ => true | None => false end
  | _ => false
  end.

Definition getattr (v : value) (a : string) : option value :=
  match v with
  | VObject _ attrs => dict_get attrs a
  | _ => None
  end.

(** A class: [__name__] and [__dict__]. *)
Record pyclass : Type := mkClass {
  cls_name : string;
  cls_dict : dict value
}.

End Obj.

(** Exceptions of [decorators.py].  All three are [ValueError] in the
    source; the payload is what the message interpolates. *)
Module Exn.
Import Obj.

Inductive exn : Type :=
| PortCountMismatch (cls : string) (n_pbits : Z) (found : nat)
                    (names : list string)
| ShapeMismatch_h (n_pbits : Z) (got : list Z)
| ShapeMismatch_J (n_pbits : Z) (got : list Z)
| InvalidFormat
| AttributeError
| KeyError
| IndexError.

Inductive result (A : Type) : Type :=
| Ok (a : A)
| Raise (e : exn).
Arguments Raise {A} e.

Definition bind {A B} (r : result A) (k : A -> result B) : result B :=
  match r with
  | Ok a => k a
  | Raise e => Raise e
  end.

(** The spec's [ShapeMismatch]. *)
Definition is_ShapeMismatch (e : exn) : bool :=
  match e with
  | ShapeMismatch_h _ _ | ShapeMismatch_J _ _ => true
  | _ => false
  end.

End Exn.

Declare Scope exn_scope.
Delimit Scope exn_scope with exn.
Notation "x <- r ;; k" := (Exn.bind r (fun x => k))
  (at level 61, r at next level, right associativity) : exn_scope.

(** ** [p_kit/psl/decorators.py] *)

Module Decorators.
Import Obj Exn.
Local Open Scope string_scope.
Local Open Scope exn_scope.

(** *** [pcircuit] *)

(** Lines 109 and 110: the [Port] attributes of the class body, in the
    order of [cls.__dict__]. *)
Fixpoint ports_in (items : list (string * value)) : list (string * Port) :=
  match items with
  | [] => []
  | (nm, VPort p) :: items' => (nm, p) :: ports_in items'
  | _ :: items' => ports_in items'
  end.

Definition port_attrs (cls : pyclass) : dict Port :=
  dict_of (ports_in (cls_dict cls)).

(** Line 119. *)
Definition port_indices (attrs : dict Port) : dict nat :=
  dict_of (map (fun p => (snd p, fst p)) (enumerate (keys attrs))).

(** What the closure [__new__] captures of [decorator]. *)
Record pcircuit_class : Type := mkPcircuitClass {
  pc_cls : pyclass;
  pc_n_pbits : Z;
  pc_port_attrs : dict Port;
  pc_port_indices : dict nat
}.

(** Lines 108 to 119 and 153 to 154: [pcircuit(n_pbits)(cls)]. *)
Definition pcircuit (n_pbits : Z) (cls : pyclass) : result pcircuit_class :=
  let attrs := port_attrs cls in
  if negb (Z.eqb (Z.of_nat (length attrs)) n_pbits)
  then Raise (PortCountMismatch (cls_name cls) n_pbits (length attrs)
                                (keys attrs))
  else Ok {| pc_cls := cls;
             pc_n_pbits := n_pbits;
             pc_port_attrs := attrs;
             pc_port_indices := port_indices attrs |}.

(** [getattr(cls, a, default)] and [hasattr(cls, a)] on a class with no
    base but [object]. *)
Definition cls_getattr (cls : pyclass) (a : string) (default : value)
  : value :=
  match dict_get (cls_dict cls) a with
  | Some v => v
  | None => default
  end.

Definition cls_hasattr (cls : pyclass) (a : string) : bool :=
  match dict_get (cls_dict cls) a with
  | Some _ => true
  | None => false
  end.

(** [v.shape]. *)
Definition shape_of (v : value) : result (list Z) :=
  match v with
  | VArray a => Ok (shape a)
  | _ => Raise AttributeError
  end.

(** Lines 131 to 136. *)
Definition check_h (cls : pyclass) (n_pbits : Z) : result unit :=
  if cls_hasattr cls "h" then
    sh <- shape_of (cls_getattr cls "h" VOther) ;;
    if negb (shape_eqb sh [n_pbits; 1%Z])
    then Raise (ShapeMismatch_h n_pbits sh)
    else Ok tt
  else Ok tt.

(** Lines 138 to 143. *)
Definition check_J (cls : pyclass) (n_pbits : Z) : result unit :=
  if cls_hasattr cls "J" then
    sh <- shape_of (cls_getattr cls "J" VOther) ;;
    if negb (shape_eqb sh [n_pbits; n_pbits])
    then Raise (ShapeMismatch_J n_pbits sh)
    else Ok tt
  else Ok tt.

(** Lines 145 to 149, on the attribute dictionary of [instance], whose
    identity is [id]. *)
Fixpoint bind_ports (indices : dict nat) (id : nat)
    (ports : list (string * Port)) (inst : dict value)
  : result (dict value) :=
  match ports with
  | [] => Ok inst
  | (nm, port) :: ports' =>
      idx <- match dict_get indices nm with
             | Some i => Ok i
             | None => Raise KeyError
             end ;;
      let new_port :=
        {| name := name port; circuit := Some id; index := Some idx |} in
      bind_ports indices id ports' (dict_set inst nm (VPort new_port))
  end.

(** Lines 123 to 151: [__new__], called on the object [id] that
    [original_new] returned. *)
Definition pcircuit_new (pc : pcircuit_class) (id : nat) : result value :=
  let cls := pc_cls pc in
  let n_pbits := pc_n_pbits pc in
  let inst := dict_set [] "n_pbits" (VInt n_pbits) in
  let inst :=
    dict_set inst "h" (cls_getattr cls "h" (VArray (zeros [n_pbits; 1%Z]))) in
  let inst :=
    dict_set inst "J"
      (cls_getattr cls "J" (VArray (zeros [n_pbits; n_pbits]))) in
  let inst := dict_set inst "_connections" VDict in
  _ <- check_h cls n_pbits ;;
  _ <- check_J cls n_pbits ;;
  inst <- bind_ports (pc_port_indices pc) id (pc_port_attrs pc) inst ;;
  Ok (VObject id inst).

(** *** [module] *)

(** The result of [synthesize]: the sparse pair of dictionaries or the
    dense pair of arrays. *)
Inductive synthesized : Type :=
| Sparse (Js : list (nat * list (nat * R))) (hs : list (nat * R))
| Dense (Jd : list (list R)) (hd : list R).

(** The class [ModuleContext] of [p_kit/psl/context.py] is not among the
    sources; [module] is embedded over any implementation of the three
    operations it calls. *)
Class ModuleContextOps : Type := {
  ModuleContext : Type;
  new_context : ModuleContext;
  register_instance : ModuleContext -> value -> ModuleContext;
  synthesize : ModuleContext -> string -> result synthesized
}.

Section Module.
Context {ops : ModuleContextOps}.

(** The heap of contexts; a location is an index. *)
Definition heap : Type := list ModuleContext.

Definition heap_get (s : heap) (loc : nat) : result ModuleContext :=
  match nth_error s loc with
  | Some c => Ok c
  | None => Raise IndexError
  end.

Fixpoint heap_set (s : heap) (loc : nat) (c : ModuleContext) : heap :=
  match s, loc with
  | [], _ => []
  | _ :: s', O => c :: s'
  | x :: s', S loc' => x :: heap_set s' loc' c
  end.

(** What the closures of [module] capture: the class and the one
    context made on line 38. *)
Record module_class : Type := mkModuleClass {
  mc_cls : pyclass;
  mc_context : nat
}.

(** Lines 38 to 86: [module(cls)]. *)
Definition module (cls : pyclass) (s : heap) : module_class * heap :=
  ({| mc_cls := cls; mc_context := length s |}, (s ++ [new_context])%list).

(** Lines 43 to 46: [__new__]. *)
Definition module_new (mc : module_class) : dict value :=
  dict_set [] "_context" (VContext (mc_context mc)).

(** [self._context], as a location of the heap. *)
Definition context_of (self : dict value) : result nat :=
  match dict_get self "_context" with
  | Some (VContext loc) => Ok loc
  | _ => Raise AttributeError
  end.

(** Lines 50 to 52, over the items of [vars(self)]. *)
Fixpoint register_attrs (self : dict value)
    (items : list (string * value)) (s : heap) : result heap :=
  match items with
  | [] => Ok s
  | (_, attr_value) :: items' =>
      if hasattr attr_value "n_pbits" then
        loc <- context_of self ;;
        ctx <- heap_get s loc ;;
        register_attrs self items'
          (heap_set s loc (register_instance ctx attr_value))
      else register_attrs self items' s
  end.

(** Lines 48 to 52: [__init__].  The original [__init__] of the class is
    the list of the assignments [self.k = v] it makes, in order. *)
Definition module_init (original_init : list (string * value))
    (self : dict value) (s : heap) : result (dict value * heap) :=
  let self :=
    fold_left (fun d kv => dict_set d (fst kv) (snd kv))
              original_init self in
  s' <- register_attrs self self s ;;
  Ok (self, s').

(** [cls(...)]: [__new__], then [__init__]. *)
Definition construct (mc : module_class)
    (original_init : list (string * value)) (s : heap)
  : result (dict value * heap) :=
  module_init original_init (module_new mc) s.

(** Lines 54 to 80: [synthesize]. *)
Definition module_synthesize (self : dict value) (format : string)
    (s : heap) : result synthesized :=
  if negb (existsb (String.eqb format) ["sparse"; "dense"])
  then Raise InvalidFormat
  else
    loc <- context_of self ;;
    ctx <- heap_get s loc ;;
    synthesize ctx format.

(** The attributes that line 51 lets through. *)
Definition circuits_of (self : dict value) : list value :=
  filter (fun v => hasattr v "n_pbits") (values self).

End Module.

End Decorators.

(** ** The module context *)

Module Context.
Import Obj Exn Decorators.
Local Open Scope string_scope.
Local Open Scope exn_scope.

(** The unit count a registered object exposes. *)
Definition n_of (c : value) : nat :=
  match getattr c "n_pbits" with
  | Some (VInt n) => Z.to_nat n
  | _ => O
  end.

Definition total_n (regs : list (value * nat)) : nat :=
  fold_right (fun r acc => (n_of (fst r) + acc)%nat) O regs.

(** Modelled from the spec: the test behind "only circuits exposing
    {n, J, h} qualify for registration" of [ModuleContext] in
    [p_kit/psl/context.py], which is not among the sources.  It looks at the
    three attributes and at nothing else of the object. *)
Definition qualifies (c : value) : bool :=
  hasattr c "n_pbits" && hasattr c "J" && hasattr c "h".

(** Modelled from the spec: [ModuleContext.register_instance] of
    [p_kit/psl/context.py], which is not among the sources.  The context is
    the ordered sequence of (circuit, offset).  Registering a circuit that
    qualifies appends it at the running total of the unit counts registered
    before; an object that does not qualify is not registered. *)
Definition register (regs : list (value * nat)) (c : value)
  : list (value * nat) :=
  if qualifies c then (regs ++ [(c, total_n regs)])%list else regs.

Record block : Type := mkBlock {
  b_off : nat;
  b_n : nat;
  b_J : list R;
  b_h : list R
}.

Definition array_attr (c : value) (a : string) : result (list R) :=
  match getattr c a with
  | Some (VArray arr) => Ok (data arr)
  | _ => Raise AttributeError
  end.

Fixpoint blocks (regs : list (value * nat)) : result (list block) :=
  match regs with
  | [] => Ok []
  | (c, off) :: regs' =>
      Jc <- array_attr c "J" ;;
      hc <- array_attr c "h" ;;
      bs <- blocks regs' ;;
      Ok ({| b_off := off; b_n := n_of c; b_J := Jc; b_h := hc |} :: bs)
  end.

Definition covers (b : block) (r : nat) : bool :=
  Nat.leb (b_off b) r && Nat.ltb r (b_off b + b_n b).

Definition J_entry (bs : list block) (r c : nat) : R :=
  match find (fun b => covers b r && covers b c) bs with
  | Some b => nth ((r - b_off b) * b_n b + (c - b_off b)) (b_J b) 0%R
  | None => 0%R
  end.

Definition h_entry (bs : list block) (r : nat) : R :=
  match find (fun b => covers b r) bs with
  | Some b => nth (r - b_off b) (b_h b) 0%R
  | None => 0%R
  end.

Definition nonzero (x : R) : bool :=
  if Req_dec_T x 0%R then false else true.

Definition sparse_row (row : list R) : list (nat * R) :=
  filter (fun e => nonzero (snd e)) (enumerate row).

(** Modelled from the spec: [ModuleContext.synthesize] of
    [p_kit/psl/context.py], which is not among the sources.  Dense: the
    [total_n] by [total_n] matrix and the length-[total_n] vector, zero but
    for each registered circuit's [J] and [h] copied at its offset.
    Sparse: the same entries as dictionaries that hold the nonzero ones. *)
Definition synthesize_regs (regs : list (value * nat)) (format : string)
  : result synthesized :=
  bs <- blocks regs ;;
  let N := total_n regs in
  let Jd := map (fun r => map (fun c => J_entry bs r c) (seq 0 N))
                (seq 0 N) in
  let hd := map (h_entry bs) (seq 0 N) in
  if String.eqb format "dense" then Ok (Dense Jd hd)
  else if String.eqb format "sparse" then
    Ok (Sparse
          (filter (fun e => negb (Nat.eqb (length (snd e)) 0))
                  (enumerate (map sparse_row Jd)))
          (sparse_row hd))
  else Raise InvalidFormat.

#[export] Instance spec_context : ModuleContextOps := {|
  ModuleContext := list (value * nat);
  new_context := [];
  register_instance := register;
  synthesize := synthesize_regs
|}.

End Context.

(** ** The trajectory of a run, as the specification words it *)

Module Trajectory.
Import Py Numpy Solver.
Local Open Scope R_scope.

(** The sum of [f i] over [i] in [0 .. n-1]. *)
Definition sigma (n : nat) (f : nat -> R) : R :=
  fold_right Rplus 0 (map f (seq 0 n)).

(** A history of [N] cells after [run] steps: the first [run] cells hold
    what the steps recorded, the others what they were allocated with. *)
Definition recorded {A} (f : nat -> A) (blank : A) (N run : nat) : list A :=
  map f (seq 0 run) ++ repeat blank (N - run).

Section Run.
Variable self : CaSuDaSolver.
Variable c : PCircuit.
(** The draws, and the position of the first one the run reads. *)
Variable draws : nat -> R.
Variable p0 : nat.

Let n := n_pbits c.

Definition J_at (i j : nat) : R := nth j (nth i (J c) []) 0.
Definition h_at (i : nat) : R := nth i (h c) 0.

(** I_i = i0 * (sum_j m_j * J[i][j] + h_i). *)
Definition current (m : list R) (i : nat) : R :=
  i0 self * (sigma n (fun j => nth j m 0 * J_at i j) + h_at i).

Definition currents (m : list R) : list R :=
  map (current m) (seq 0 n).

(** threshold = atanh(expectedMean). *)
Definition threshold : R := arctanh (expected_mean self).

(** s_i = exp(-dt * exp(-m_i * (I_i + threshold))). *)
Definition survival (mi Ii : R) : R :=
  exp (- dt self * exp (- mi * (Ii + threshold))).

(** m_i = sign(0.5 - u_i), with u_i the i-th draw. *)
Definition initial_spins : list R :=
  map (fun i => sign (0.5 - draws (p0 + i))) (seq 0 n).

(** The draw of unit [i] at step [t]. *)
Definition v_at (t i : nat) : R := draws (p0 + n + t * n + i).

(** m_i <- m_i * sign(s_i - v_i), all from the same [m]. *)
Definition update (t : nat) (m : list R) : list R :=
  map (fun i =>
         nth i m 0 * sign (survival (nth i m 0) (current m i) - v_at t i))
      (seq 0 n).

(** The spin vector before step [t]; after step [t] it is
    [spins (S t)]. *)
Fixpoint spins (t : nat) : list R :=
  match t with
  | O => initial_spins
  | S t' => update t' (spins t')
  end.

(** E = i0 * (sum_i m_i*h_i + 0.5 * sum_i sum_j m_i*J[i][j]*m_j). *)
Definition energy (m : list R) : R :=
  i0 self *
  (sigma n (fun i => nth i m 0 * h_at i)
   + 0.5 * sigma n (fun i =>
             sigma n (fun j => nth i m 0 * J_at i j * nth j m 0))).

Definition I_history : list (list R) :=
  map (fun t => currents (spins t)) (seq 0 (Nt self)).
Definition m_history : list (list R) :=
  map (fun t => spins (S t)) (seq 0 (Nt self)).
Definition E_history : list R :=
  map (fun t => energy (spins (S t))) (seq 0 (Nt self)).

End Run.

End Trajectory.

(** ** Concrete circuits, solvers and tapes *)

Module Examples.
Import Py Numpy Solver.
Local Open Scope R_scope.

(** The circuit of [examples/2_1_mux.py]. *)
Definition mux : PCircuit :=
  {| n_pbits := 6;
     J := [ [0; 1; 0; 0; 2; 0];
            [1; 0; -1; 2; -2; 0];
            [0; -1; 0; 2; 0; 0];
            [0; 2; 2; 0; -1; 2];
            [2; -2; 0; -1; 0; 2];
            [0; 0; 0; 2; 2; 0] ];
     h := [1; 0; 1; -3; -3; 2] |}.

(** The solver of [examples/2_1_mux.py]; the example leaves
    [expected_mean] to the base class, 0 is taken for it here. *)
Definition mux_solver : CaSuDaSolver :=
  {| Nt := 25000; dt := 0.1667; i0 := 0.9; expected_mean := 0 |}.

(** A tape whose every draw is 1/4. *)
Definition quarter_tape : nat -> R := fun _ => 0.25.

(** A tape whose first draw is 1/2. *)
Definition half_first_tape : nat -> R :=
  fun k => match k with O => 0.5 | S _ => 0.25 end.

(** One unit, no coupling, bias [cst]. *)
Definition single (cst : R) : PCircuit :=
  {| n_pbits := 1; J := [[0]]; h := [cst] |}.

Definition one_step_solver : CaSuDaSolver :=
  {| Nt := 1; dt := 1 / 2; i0 := 1; expected_mean := 0 |}.

(** A tape whose second draw is exp(-1/2). *)
Definition tie_tape : nat -> R :=
  fun k => match k with O => 0.25 | S _ => exp (- (1 / 2)) end.

(** A solver that takes no step. *)
Definition idle_solver : CaSuDaSolver :=
  {| Nt := 0; dt := 0.1667; i0 := 0.9; expected_mean := 0 |}.

(** Two units announced, a [J] of one row of one entry and an empty [h]. *)
Definition ragged : PCircuit :=
  {| n_pbits := 2; J := [[1]]; h := [] |}.

End Examples.

Module PslExamples.
Import Obj Exn Decorators.
Local Open Scope string_scope.

Definition declared (nm : string) : value :=
  VPort {| name := nm; circuit := None; index := None |}.

(** The class of the docstring of [pcircuit]. *)
Definition ANDGate : pyclass :=
  {| cls_name := "ANDGate";
     cls_dict := [ ("__module__", VOther);
                   ("input1", declared "input1");
                   ("input2", declared "input2");
                   ("output", declared "output");
                   ("__doc__", VOther) ] |}.

(** Two ports, a [J] of shape (2, 2) and an [h] of shape (2,). *)
Definition FlatBias : pyclass :=
  {| cls_name := "FlatBias";
     cls_dict := [ ("a", declared "a");
                   ("b", declared "b");
                   ("J", VArray {| shape := [2%Z; 2%Z];
                                   data := [0; 1; 1; 0]%R |});
                   ("h", VArray {| shape := [2%Z];
                                   data := [1; 1]%R |}) ] |}.

(** Two ports, a [J] of shape (2, 2) and an [h] of shape (2, 1). *)
Definition ColumnBias : pyclass :=
  {| cls_name := "ColumnBias";
     cls_dict := [ ("a", declared "a");
                   ("b", declared "b");
                   ("J", VArray {| shape := [2%Z; 2%Z];
                                   data := [0; 1; 1; 0]%R |});
                   ("h", VArray {| shape := [2%Z; 1%Z];
                                   data := [1; 1]%R |}) ] |}.


(** The class of the docstring of [module]; its [__init__] sets two
    attributes. *)
Definition MyCircuit : pyclass :=
  {| cls_name := "MyCircuit"; cls_dict := [("__init__", VOther)] |}.

(** What [pcircuit_new] returns for [ANDGate], at identity [id]. *)
Definition and_gate (id : nat) : value :=
  match pcircuit 3 ANDGate with
  | Ok pc => match pcircuit_new pc id with
             | Ok v => v
             | Raise _ => VOther
             end
  | Raise _ => VOther
  end.

End PslExamples.

(* ================================================================== *)
(** * Part II.  Properties                                             *)
(* ================================================================== *)

(** ** The runtime *)

Section Runtime.
Import Py.

Lemma getitem_nth {A} (l : list A) (i : nat) (d : A) :
  (i < length l)%nat -> getitem l i = Ok (nth i l d).
Proof.
  intros Hi. unfold getitem.
  rewrite (nth_error_nth' l d Hi). reflexivity.
Qed.

Lemma setitem_middle {A} (pre post : list A) (x v : A) :
  setitem (pre ++ x :: post) (length pre) v = Ok (pre ++ v :: post).
Proof.
  induction pre as [|y pre IH]; simpl.
  - reflexivity.
  - rewrite IH. reflexivity.
Qed.

(** A comprehension whose element neither raises nor draws. *)
Lemma comprehension_pure {A B} (f : A -> M B) (phi : A -> B) (l : list A) :
  (forall x g, In x l -> f x g = Ok (phi x, g)) ->
  forall g, comprehension f l g = Ok (map phi l, g).
Proof.
  induction l as [|x l IH]; intros Hf g; simpl.
  - reflexivity.
  - unfold bind at 1. rewrite (Hf x g (or_introl eq_refl)).
    unfold bind at 1. rewrite IH.
    + reflexivity.
    + intros y g' Hy. apply Hf. right. exact Hy.
Qed.

(** A comprehension over [range] whose element draws exactly once: the
    element of index [i] reads cell [p + (i - a)], and the generator ends
    [k] cells further. *)
Lemma comprehension_draw {B} (f : nat -> M B) (phi : nat -> R -> B)
    (d : nat -> R) :
  forall k a p,
    (forall i q, (a <= i < a + k)%nat ->
                 f i (mkRng d q) = Ok (phi i (d q), mkRng d (S q))) ->
    comprehension f (seq a k) (mkRng d p)
    = Ok (map (fun i => phi i (d (p + (i - a))%nat)) (seq a k),
          mkRng d (p + k)).
Proof.
  induction k as [|k IH]; intros a p Hf; simpl.
  - rewrite Nat.add_0_r. reflexivity.
  - unfold bind at 1. rewrite (Hf a p) by lia.
    unfold bind at 1. rewrite (IH (S a) (S p)).
    + unfold ret. rewrite Nat.sub_diag, Nat.add_0_r.
      replace (S p + k)%nat with (p + S k)%nat by lia.
      do 3 f_equal.
      apply map_ext_in. intros i Hi. apply in_seq in Hi.
      do 2 f_equal. lia.
    + intros i q Hi. apply Hf. lia.
Qed.

Lemma bind_ok {A B} {m : M A} (k : A -> M B) {g g' : rng} {a : A} :
  m g = Ok (a, g') -> bind m k g = k a g'.
Proof. intros H. unfold bind. now rewrite H. Qed.

Lemma bind_lift_ok {A B} {r : result A} (k : A -> M B) (g : rng) {a : A} :
  r = Ok a -> bind (lift r) k g = k a g.
Proof. intros H. unfold bind, lift. now rewrite H. Qed.

(** An invariant of the loop body is carried through [k] rounds, as long
    as the counter stays below the bound [N] under which the body is known
    to succeed. *)
Lemma for_range_invariant {St} (body : nat -> St -> M St)
    (Inv : nat -> St -> rng -> Prop) (N : nat) :
  (forall run st g, (run < N)%nat -> Inv run st g ->
     exists st' g', body run st g = Ok (st', g') /\ Inv (S run) st' g') ->
  forall k run st g, (run + k <= N)%nat -> Inv run st g ->
    exists st' g', for_range run k body st g = Ok (st', g')
                   /\ Inv (run + k)%nat st' g'.
Proof.
  intros Hbody. induction k as [|k IH]; intros run st g Hk HI; simpl.
  - exists st, g. rewrite Nat.add_0_r. split; [reflexivity | exact HI].
  - destruct (Hbody run st g ltac:(lia) HI) as (st1 & g1 & Hb & HI1).
    rewrite (bind_ok _ Hb).
    destruct (IH (S run) st1 g1 ltac:(lia) HI1) as (st2 & g2 & Hl & HI2).
    exists st2, g2. split; [exact Hl |].
    replace (run + S k)%nat with (S run + k)%nat by lia. exact HI2.
Qed.

End Runtime.

(** ** Finite sums *)

Section Sums.
Import Numpy Trajectory.
Local Open Scope R_scope.

Lemma sigma_S_l (n : nat) (f : nat -> R) :
  sigma (S n) f = f O + sigma n (fun i => f (S i)).
Proof.
  unfold sigma. simpl. f_equal.
  rewrite <- seq_shift, map_map. reflexivity.
Qed.

Lemma sigma_ext (n : nat) (f g : nat -> R) :
  (forall i, (i < n)%nat -> f i = g i) -> sigma n f = sigma n g.
Proof.
  intros H. unfold sigma. f_equal.
  apply map_ext_in. intros i Hi. apply in_seq in Hi. apply H. lia.
Qed.

Lemma sigma_plus (n : nat) (f g : nat -> R) :
  sigma n (fun i => f i + g i) = sigma n f + sigma n g.
Proof.
  revert f g. induction n as [|n IH]; intros f g.
  - unfold sigma. simpl. lra.
  - rewrite !sigma_S_l, IH. lra.
Qed.

Lemma sigma_scale_r (n : nat) (f : nat -> R) (a : R) :
  sigma n f * a = sigma n (fun i => f i * a).
Proof.
  revert f. induction n as [|n IH]; intros f.
  - unfold sigma. simpl. lra.
  - rewrite !sigma_S_l, <- IH. lra.
Qed.

Lemma sigma_zero (n : nat) : sigma n (fun _ => 0) = 0.
Proof.
  induction n as [|n IH].
  - reflexivity.
  - rewrite sigma_S_l, IH. lra.
Qed.

(** The two orders of a double sum. *)
Lemma sigma_swap (n k : nat) (f : nat -> nat -> R) :
  sigma n (fun i => sigma k (fun j => f i j))
  = sigma k (fun j => sigma n (fun i => f i j)).
Proof.
  revert f. induction n as [|n IH]; intros f.
  - unfold sigma at 1 3. simpl. symmetry. apply sigma_zero.
  - rewrite sigma_S_l, IH, <- sigma_plus.
    apply sigma_ext. intros j _. rewrite sigma_S_l. reflexivity.
Qed.

(** [sum_products] is the sum the specification writes. *)
Lemma sum_products_sigma (a b : list R) :
  length a = length b ->
  sum_products a b = sigma (length a) (fun j => nth j a 0 * nth j b 0).
Proof.
  revert b. induction a as [|x a IH]; intros [|y b] Hlen;
    try discriminate; simpl.
  - reflexivity.
  - rewrite sigma_S_l. simpl. f_equal. apply IH. now injection Hlen.
Qed.

Lemma dot_sigma (a b : list R) :
  length a = length b ->
  dot a b = Py.Ok (sigma (length a) (fun j => nth j a 0 * nth j b 0)).
Proof.
  intros Hlen. unfold dot. rewrite Hlen, Nat.eqb_refl, <- Hlen.
  now rewrite sum_products_sigma.
Qed.

End Sums.

(** ** One run of [solve] *)

Section SolveRun.
Import Py Numpy Solver Trajectory.
Local Open Scope R_scope.

Variable self : CaSuDaSolver.
Variable c : PCircuit.
Hypothesis shaped : well_shaped c = true.

Let n := n_pbits c.

Lemma shaped_J : length (J c) = n.
Proof.
  pose proof shaped as H. unfold well_shaped in H.
  apply andb_prop in H as [H _]. apply andb_prop in H as [H _].
  now apply Nat.eqb_eq.
Qed.

Lemma shaped_row (i : nat) : (i < n)%nat -> length (nth i (J c) []) = n.
Proof.
  intros Hi. pose proof shaped as H. unfold well_shaped in H.
  apply andb_prop in H as [H _]. apply andb_prop in H as [_ H].
  rewrite forallb_forall in H. apply Nat.eqb_eq, H, nth_In.
  now rewrite shaped_J.
Qed.

Lemma shaped_h : length (h c) = n.
Proof.
  pose proof shaped as H. unfold well_shaped in H.
  apply andb_prop in H as [_ H]. now apply Nat.eqb_eq.
Qed.

Lemma nth_map_seq {B} (f : nat -> B) (k i : nat) (d : B) :
  (i < k)%nat -> nth i (map f (seq 0 k)) d = f i.
Proof.
  intros Hi. rewrite (nth_indep _ d (f O)).
  - rewrite map_nth, seq_nth by exact Hi. reflexivity.
  - now rewrite length_map, length_seq.
Qed.

(** Line 24 computes the currents of the specification. *)
Lemma input_biases_currents (m : list R) (g : rng) :
  length m = n ->
  input_biases self c (seq 0 n) m g = Ok (currents self c m, g).
Proof.
  intros Hm. unfold input_biases, currents.
  apply comprehension_pure. intros i g' Hi.
  apply in_seq in Hi. assert (Hin : (i < n)%nat) by lia.
  unfold bind, lift, ret.
  rewrite (getitem_nth (J c) [] (i := i)) by now rewrite shaped_J.
  rewrite dot_sigma by now rewrite shaped_row.
  rewrite (getitem_nth (h c) 0 (i := i)) by now rewrite shaped_h.
  rewrite Hm. reflexivity.
Qed.

(** Lines 27 to 31 compute the survival value of every unit. *)
Lemma apply_S_survival (m I : list R) (g : rng) :
  length m = n -> length I = n ->
  apply_S self (seq 0 n) m I g
  = Ok (map (fun i => survival self (nth i m 0) (nth i I 0)) (seq 0 n), g).
Proof.
  intros Hm HI. unfold apply_S.
  apply comprehension_pure. intros i g' Hi.
  apply in_seq in Hi.
  unfold bind, lift, ret.
  rewrite (getitem_nth m 0 (i := i)) by lia.
  rewrite (getitem_nth I 0 (i := i)) by lia.
  unfold survival, threshold. do 3 f_equal.
  replace (-1 * nth i m 0 * (nth i I 0 + arctanh (expected_mean self)))
    with (- nth i m 0 * (nth i I 0 + arctanh (expected_mean self)))
    by ring.
  ring.
Qed.

(** Line 34 draws once per unit, in index order, and multiplies every
    spin of the old vector by a sign. *)
Lemma new_output_draws (m s : list R) (d : nat -> R) (p : nat) :
  length m = n -> length s = n ->
  new_output (seq 0 n) m s (mkRng d p)
  = Ok (map (fun i => nth i m 0 * sign (nth i s 0 - d (p + i)%nat))
            (seq 0 n),
        mkRng d (p + n)).
Proof.
  intros Hm Hs. unfold new_output.
  rewrite comprehension_draw
    with (phi := fun i v => nth i m 0 * sign (nth i s 0 - v)).
  - do 2 f_equal. apply map_ext. intros i. now rewrite Nat.sub_0_r.
  - intros i q Hi. unfold bind, lift, ret, random. simpl.
    rewrite (getitem_nth m 0 (i := i)) by lia.
    rewrite (getitem_nth s 0 (i := i)) by lia.
    reflexivity.
Qed.

Lemma ncols_shaped : ncols (J c) = n.
Proof.
  pose proof shaped_J as HJ. unfold ncols.
  destruct (J c) as [|row rest] eqn:E.
  - exact HJ.
  - assert (H0 : (0 < n)%nat) by (simpl in HJ; lia).
    pose proof (shaped_row H0) as Hr. rewrite E in Hr. exact Hr.
Qed.

Lemma column_nth (i j : nat) :
  nth i (column (J c) j) 0 = J_at c i j.
Proof.
  unfold column, J_at.
  destruct (Nat.lt_ge_cases i (length (J c))) as [Hi | Hi].
  - rewrite (nth_indep _ 0 ((fun row : list R => nth j row 0) []))
      by now rewrite length_map.
    exact (map_nth (fun row : list R => nth j row 0) (J c) [] i).
  - rewrite (nth_overflow (map _ _)) by now rewrite length_map.
    rewrite (nth_overflow (J c)) by exact Hi.
    now destruct j.
Qed.

(** Lines 39 to 41 compute the energy of the specification. *)
Lemma energy_of_energy (m : list R) (g : rng) :
  length m = n ->
  energy_of self c m g = Ok (energy self c m, g).
Proof.
  intros Hm. unfold energy_of, bind, lift, ret.
  rewrite dot_sigma by now rewrite shaped_h.
  unfold vecmat. rewrite Hm, shaped_J, Nat.eqb_refl, ncols_shaped.
  rewrite dot_sigma by now rewrite length_map, length_seq.
  rewrite length_map, length_seq.
  unfold energy, h_at. fold n. do 5 f_equal.
  rewrite sigma_swap. apply sigma_ext. intros j Hj.
  rewrite (nth_map_seq _ _ Hj).
  rewrite sum_products_sigma
    by (unfold column; now rewrite length_map, shaped_J).
  rewrite Hm, sigma_scale_r. apply sigma_ext. intros i _.
  now rewrite column_nth.
Qed.

End SolveRun.

Section SolveTrajectory.
Import Py Numpy Solver Trajectory.
Local Open Scope R_scope.

Variable self : CaSuDaSolver.
Variable c : PCircuit.
Hypothesis shaped : well_shaped c = true.
Variable d : nat -> R.
Variable p0 : nat.

Let n := n_pbits c.

Lemma recorded_full {A} (f : nat -> A) (blank : A) (N : nat) :
  recorded f blank N N = map f (seq 0 N).
Proof. unfold recorded. now rewrite Nat.sub_diag, app_nil_r. Qed.

Lemma setitem_recorded {A} (f : nat -> A) (blank : A) (N run : nat) :
  (run < N)%nat ->
  setitem (recorded f blank N run) run (f run)
  = Ok (recorded f blank N (S run)).
Proof.
  intros Hrun. unfold recorded.
  replace (N - run)%nat with (S (N - S run)) by lia. simpl repeat.
  pose proof (setitem_middle (map f (seq 0 run))
                (repeat blank (N - S run)) blank (f run)) as H.
  rewrite length_map, length_seq in H.
  rewrite H, seq_S, map_app, <- app_assoc. reflexivity.
Qed.

Lemma length_initial_spins : length (initial_spins c d p0) = n.
Proof. unfold initial_spins. now rewrite length_map, length_seq. Qed.

Lemma length_update (t : nat) (m : list R) :
  length (update self c d p0 t m) = n.
Proof. unfold update. now rewrite length_map, length_seq. Qed.

Lemma length_spins (t : nat) : length (spins self c d p0 t) = n.
Proof.
  destruct t; simpl; [apply length_initial_spins | apply length_update].
Qed.

Lemma length_currents (m : list R) : length (currents self c m) = n.
Proof. unfold currents. now rewrite length_map, length_seq. Qed.

(** Line 19 draws once per unit, in index order. *)
Lemma initial_m_spins :
  initial_m (seq 0 n) (mkRng d p0)
  = Ok (initial_spins c d p0, mkRng d (p0 + n)).
Proof.
  unfold initial_m.
  rewrite comprehension_draw with (phi := fun _ u => sign (0.5 - u)).
  - unfold initial_spins. do 2 f_equal.
    apply map_ext. intros i. now rewrite Nat.sub_0_r.
  - intros i q _. reflexivity.
Qed.

(** Lines 24 to 34, one after the other, are one [update]. *)
Lemma new_output_update (t : nat) (m : list R) :
  length m = n ->
  new_output (seq 0 n) m
    (map (fun i => survival self (nth i m 0) (nth i (currents self c m) 0))
         (seq 0 n))
    (mkRng d (p0 + n + t * n))
  = Ok (update self c d p0 t m, mkRng d (p0 + n + S t * n)).
Proof.
  intros Hm. unfold n in *.
  rewrite new_output_draws
    by (try exact Hm; now rewrite length_map, length_seq).
  unfold update. do 2 f_equal.
  - apply map_ext_in. intros i Hi. apply in_seq in Hi.
    assert (Hin : (i < n_pbits c)%nat) by lia.
    rewrite (nth_map_seq _ _ Hin). unfold currents.
    rewrite (nth_map_seq _ _ Hin). reflexivity.
  - f_equal. lia.
Qed.

(** One round of the loop, from the state the rounds before it left. *)
Lemma loop_body_round (run : nat) :
  (run < Nt self)%nat ->
  let blankv : list R := [] in
  let N := Nt self in
  let I_of t := currents self c (spins self c d p0 t) in
  let m_of t := spins self c d p0 (S t) in
  let E_of t := energy self c (spins self c d p0 (S t)) in
  loop_body self c (seq 0 n) run
    (spins self c d p0 run,
     recorded I_of blankv N run,
     recorded m_of blankv N run,
     recorded E_of 0 N run)
    (mkRng d (p0 + n + run * n))
  = Ok ((spins self c d p0 (S run),
         recorded I_of blankv N (S run),
         recorded m_of blankv N (S run),
         recorded E_of 0 N (S run)),
        mkRng d (p0 + n + S run * n)).
Proof.
  intros Hrun blankv N I_of m_of E_of. unfold loop_body.
  pose proof (length_spins run) as Hm.
  rewrite (bind_ok _ (@input_biases_currents self c shaped _ _ Hm)).
  rewrite (bind_ok _ (@apply_S_survival self c _ _ _ Hm
                        (length_currents _))).
  rewrite (bind_ok _ (@new_output_update run _ Hm)).
  rewrite (bind_lift_ok _ _ (@setitem_recorded _ I_of blankv _ _ Hrun)).
  rewrite (bind_lift_ok _ _ (@setitem_recorded _ m_of blankv _ _ Hrun)).
  rewrite (bind_ok _ (@energy_of_energy self c shaped _ _
                        (@length_update run _))).
  rewrite (bind_lift_ok _ _ (@setitem_recorded _ E_of 0 _ _ Hrun)).
  reflexivity.
Qed.

(** [solve] returns, and what it returns is the trajectory of the
    specification; it leaves the generator [n + Nt * n] cells further. *)
Theorem solve_trajectory :
  solve self c (mkRng d p0)
  = Ok ((I_history self c d p0, m_history self c d p0,
         E_history self c d p0),
        mkRng d (p0 + n + Nt self * n)).
Proof.
  unfold solve. fold n.
  rewrite (bind_ok _ initial_m_spins).
  pose (blankv := @nil R). pose (N := Nt self).
  pose (I_of := fun t => currents self c (spins self c d p0 t)).
  pose (m_of := fun t => spins self c d p0 (S t)).
  pose (E_of := fun t => energy self c (spins self c d p0 (S t))).
  pose (Inv := fun (run : nat) (st : loop_state) (g : rng) =>
    st = (spins self c d p0 run, recorded I_of blankv N run,
          recorded m_of blankv N run, recorded E_of 0 N run)
    /\ g = mkRng d (p0 + n + run * n)).
  destruct (for_range_invariant (loop_body self c (seq 0 n)) Inv (N := N))
    with (k := N) (run := O)
         (st := (initial_spins c d p0, repeat blankv N, repeat blankv N,
                 repeat 0 N))
         (g := mkRng d (p0 + n))
    as (st & g & Hloop & Hst & Hg).
  - intros run st g Hrun [-> ->].
    eexists _, _. split; [apply (@loop_body_round run Hrun) |].
    split; reflexivity.
  - lia.
  - split.
    + unfold recorded. simpl. now rewrite Nat.sub_0_r.
    + f_equal. lia.
  - subst N. rewrite (bind_ok _ Hloop). subst st g. simpl.
    unfold ret. rewrite !recorded_full. reflexivity.
Qed.

End SolveTrajectory.

(** ** The recorded histories *)

Section Histories.
Import Py Numpy Solver Trajectory.
Local Open Scope R_scope.

Variable self : CaSuDaSolver.
Variable c : PCircuit.
Variable d : nat -> R.
Variable p0 : nat.

Lemma nth_I_history (t : nat) :
  (t < Nt self)%nat ->
  nth t (I_history self c d p0) [] = currents self c (spins self c d p0 t).
Proof. intros Ht. unfold I_history. now rewrite nth_map_seq. Qed.

Lemma nth_m_history (t : nat) :
  (t < Nt self)%nat ->
  nth t (m_history self c d p0) [] = spins self c d p0 (S t).
Proof. intros Ht. unfold m_history. now rewrite nth_map_seq. Qed.

Lemma nth_E_history (t : nat) :
  (t < Nt self)%nat ->
  nth t (E_history self c d p0) 0 = energy self c (spins self c d p0 (S t)).
Proof. intros Ht. unfold E_history. now rewrite nth_map_seq. Qed.

(** The vector a step starts from, read off what the run returned: the
    initial vector for step 0, the row recorded by the step before
    otherwise. *)
Lemma pre_update_spins (t : nat) :
  (t < Nt self)%nat ->
  match t with
  | O => initial_spins c d p0
  | S t' => nth t' (m_history self c d p0) []
  end = spins self c d p0 t.
Proof.
  intros Ht. destruct t as [|t']; [reflexivity |].
  rewrite nth_m_history by lia. reflexivity.
Qed.

End Histories.

(** ** Input currents *)

(** C1.  On every circuit whose [J] is n by n and whose [h] has length n,
    [solve] returns, and row [t] of the returned [I_history] holds, for every
    unit [i], the current i0 * (sum_j m_j * J[i][j] + h_i), where [m] is the
    one vector step [t] started from: the initial vector for [t = 0] and row
    [t-1] of [m_history] otherwise. *)
Theorem C1_input_currents
    (self : Solver.CaSuDaSolver) (c : Solver.PCircuit)
    (d : nat -> R) (p0 : nat) :
  Solver.well_shaped c = true ->
  exists m0 g1 Ih Mh Eh g2,
    Solver.initial_m (seq 0 (Solver.n_pbits c)) (Py.mkRng d p0)
      = Py.Ok (m0, g1)
    /\ Solver.solve self c (Py.mkRng d p0) = Py.Ok ((Ih, Mh, Eh), g2)
    /\ length Ih = Solver.Nt self
    /\ forall t, (t < Solver.Nt self)%nat ->
         let m := match t with O => m0 | S t' => nth t' Mh [] end in
         length (nth t Ih []) = Solver.n_pbits c
         /\ forall i, (i < Solver.n_pbits c)%nat ->
              nth i (nth t Ih []) 0%R
              = (Solver.i0 self
                 * (Trajectory.sigma (Solver.n_pbits c)
                      (fun j => nth j m 0 * Trajectory.J_at c i j)
                    + Trajectory.h_at c i))%R.
Proof.
  intros shaped.
  exists (Trajectory.initial_spins c d p0), (Py.mkRng d (p0 + Solver.n_pbits c)).
  eexists _, _, _, _.
  split; [apply initial_m_spins |].
  split; [apply solve_trajectory; exact shaped |].
  split; [unfold Trajectory.I_history; now rewrite length_map, length_seq |].
  intros t Ht m. subst m.
  rewrite (pre_update_spins self c d p0 Ht), nth_I_history by exact Ht.
  split; [apply length_currents |].
  intros i Hi. unfold Trajectory.currents.
  rewrite (nth_map_seq _ _ Hi). reflexivity.
Qed.

(** ** Energy *)

(** C4.  On every well-shaped circuit [solve] returns [Nt] rows of spins
    and [Nt] energies.  Row [t] of [m_history] is the vector after the
    update of step [t]: it has [n] entries, each the spin the step started
    from multiplied by the sign of the survival value minus the draw.  Entry
    [t] of [E_history] is i0 * (sum_i m_i*h_i + 0.5 * sum_i sum_j
    m_i*J[i][j]*m_j) for [m] that row.  When the circuit has one unit,
    [J = [[0]]] and [h = [cst]], the entry is i0 * m_t * cst. *)
Theorem C4_energy
    (self : Solver.CaSuDaSolver) (c : Solver.PCircuit)
    (d : nat -> R) (p0 : nat) :
  Solver.well_shaped c = true ->
  let n := Solver.n_pbits c in
  exists m0 g1 Ih Mh Eh g2,
    Solver.initial_m (seq 0 n) (Py.mkRng d p0) = Py.Ok (m0, g1)
    /\ Solver.solve self c (Py.mkRng d p0) = Py.Ok ((Ih, Mh, Eh), g2)
    /\ length Mh = Solver.Nt self
    /\ length Eh = Solver.Nt self
    /\ (forall t, (t < Solver.Nt self)%nat ->
          let pre := match t with O => m0 | S t' => nth t' Mh [] end in
          let post := nth t Mh [] in
          let I := fun i =>
            (Solver.i0 self
             * (Trajectory.sigma n (fun j => nth j pre 0 * Trajectory.J_at c i j)
                + Trajectory.h_at c i))%R in
          length post = n
          /\ (forall i, (i < n)%nat ->
                nth i post 0%R
                = (nth i pre 0
                   * Numpy.sign
                       (exp (- Solver.dt self
                             * exp (- nth i pre 0
                                    * (I i + Numpy.arctanh
                                               (Solver.expected_mean self))))
                        - d (p0 + n + t * n + i)%nat))%R)
          /\ nth t Eh 0%R
             = (Solver.i0 self
                * (Trajectory.sigma n
                     (fun i => nth i post 0 * Trajectory.h_at c i)
                   + 0.5 * Trajectory.sigma n (fun i =>
                             Trajectory.sigma n (fun j =>
                               nth i post 0 * Trajectory.J_at c i j
                               * nth j post 0))))%R)
    /\ (forall cst, n = 1%nat ->
          Solver.J c = [[0%R]] -> Solver.h c = [cst] ->
          forall t, (t < Solver.Nt self)%nat ->
            nth t Eh 0%R
            = (Solver.i0 self * nth 0 (nth t Mh []) 0 * cst)%R).
Proof.
  intros shaped n.
  exists (Trajectory.initial_spins c d p0), (Py.mkRng d (p0 + n)).
  eexists _, _, _, _.
  split; [apply initial_m_spins |].
  split; [apply solve_trajectory; exact shaped |].
  split; [unfold Trajectory.m_history; now rewrite length_map, length_seq |].
  split; [unfold Trajectory.E_history; now rewrite length_map, length_seq |].
  split.
  - intros t Ht pre post I. subst pre post I.
    rewrite (pre_update_spins self c d p0 Ht).
    rewrite nth_E_history, nth_m_history by exact Ht.
    split; [apply length_spins |]. split; [| reflexivity].
    intros i Hi. simpl Trajectory.spins. unfold Trajectory.update.
    fold n. rewrite (nth_map_seq _ _ Hi). reflexivity.
  - intros cst Hn HJ Hh t Ht.
    rewrite nth_E_history, nth_m_history by exact Ht.
    unfold Trajectory.energy, Trajectory.J_at, Trajectory.h_at.
    fold n. rewrite Hn, HJ, Hh. unfold Trajectory.sigma. simpl. lra.
Qed.

(** ** Replay *)

Section Replay.
Import Py Numpy Solver Trajectory.
Local Open Scope R_scope.

Variable self : CaSuDaSolver.
Variable c : PCircuit.
Variables d d' : nat -> R.
Variables p0 p0' : nat.

Let n := n_pbits c.

(** The two tapes hold the same draws in the cells a run of [T] steps
    reads. *)
Variable T : nat.
Hypothesis same_draws :
  forall k, (k < n + T * n)%nat -> d (p0 + k)%nat = d' (p0' + k)%nat.

Lemma spins_same_draws (t : nat) :
  (t <= T)%nat -> spins self c d p0 t = spins self c d' p0' t.
Proof.
  induction t as [|t IH]; intros Ht; simpl.
  - unfold initial_spins. apply map_ext_in. intros i Hi.
    apply in_seq in Hi. rewrite same_draws; [reflexivity |].
    fold n in Hi. lia.
  - rewrite IH by lia. unfold update. apply map_ext_in. intros i Hi.
    apply in_seq in Hi. fold n in Hi. unfold v_at. fold n.
    assert (Hmul : (S t * n <= T * n)%nat)
      by (apply Nat.mul_le_mono_r; lia).
    replace (p0 + n + t * n + i)%nat with (p0 + (n + t * n + i))%nat by lia.
    replace (p0' + n + t * n + i)%nat with (p0' + (n + t * n + i))%nat
      by lia.
    rewrite same_draws; [reflexivity |]. simpl in Hmul. lia.
Qed.

End Replay.

(** C6.  [solve] is a function of the circuit, the solver fields and the
    draws it reads: two calls whose generators deliver the same [n + Nt * n]
    draws return the same three histories.  The call reads exactly that many
    cells: line 19 reads [n], unit [i] taking the [i]-th of them, and each
    execution of line 34 reads [n], unit [i] taking the [i]-th of them. *)
Theorem C6_replay
    (self : Solver.CaSuDaSolver) (c : Solver.PCircuit)
    (d d' : nat -> R) (p0 p0' : nat) :
  let n := Solver.n_pbits c in
  let Nt := Solver.Nt self in
  Solver.well_shaped c = true ->
  (forall k, (k < n + Nt * n)%nat -> d (p0 + k)%nat = d' (p0' + k)%nat) ->
  (exists out,
      Solver.solve self c (Py.mkRng d p0)
        = Py.Ok (out, Py.mkRng d (p0 + n + Nt * n))
      /\ Solver.solve self c (Py.mkRng d' p0')
        = Py.Ok (out, Py.mkRng d' (p0' + n + Nt * n)))
  /\ Solver.initial_m (seq 0 n) (Py.mkRng d p0)
     = Py.Ok (map (fun i => Numpy.sign (0.5 - d (p0 + i)%nat)) (seq 0 n),
              Py.mkRng d (p0 + n))
  /\ (forall m s q, length m = n -> length s = n ->
        Solver.new_output (seq 0 n) m s (Py.mkRng d q)
        = Py.Ok (map (fun i =>
                        (nth i m 0 * Numpy.sign (nth i s 0 - d (q + i)%nat))%R)
                     (seq 0 n),
                 Py.mkRng d (q + n))).
Proof.
  intros n Nt shaped Hsame. split; [| split].
  - eexists. split.
    + apply solve_trajectory. exact shaped.
    + rewrite (@solve_trajectory self c shaped d' p0').
      pose proof (@spins_same_draws self c d d' p0 p0' Nt Hsame) as Hsp.
      unfold Trajectory.I_history, Trajectory.m_history,
        Trajectory.E_history.
      do 2 f_equal. f_equal; [f_equal |];
        apply map_ext_in; intros t Ht; apply in_seq in Ht;
        fold Nt in Ht; rewrite Hsp by (fold Nt; lia); reflexivity.
  - apply initial_m_spins.
  - intros m s q Hm Hs. apply new_output_draws; assumption.
Qed.

(** ** The sign at zero *)

Section Sign.
Import Numpy.
Local Open Scope R_scope.

Lemma sign_zero : sign 0 = 0.
Proof.
  unfold sign. destruct (total_order_T 0 0) as [[H | H] | H]; lra.
Qed.

Lemma sign_pos (x : R) : 0 < x -> sign x = 1.
Proof.
  intros Hx. unfold sign.
  destruct (total_order_T x 0) as [[H | H] | H]; lra.
Qed.

Lemma sign_neg (x : R) : x < 0 -> sign x = -1.
Proof.
  intros Hx. unfold sign.
  destruct (total_order_T x 0) as [[H | H] | H]; lra.
Qed.

Lemma arctanh_0 : arctanh 0 = 0.
Proof.
  unfold arctanh. replace ((1 + 0) / (1 - 0)) with 1 by field.
  rewrite ln_1. ring.
Qed.

End Sign.

(** Small evaluations of the primitives. *)

Example sign_values :
  Numpy.sign 2 = 1%R /\ Numpy.sign (-3) = (-1)%R /\ Numpy.sign 0 = 0%R.
Proof.
  split; [apply sign_pos; lra |].
  split; [apply sign_neg; lra | apply sign_zero].
Qed.

Example dot_aligned : Numpy.dot [1; 2]%R [3; 4]%R = Py.Ok 11%R.
Proof. unfold Numpy.dot. simpl. f_equal. lra. Qed.

Example dot_unaligned : Numpy.dot [1; 2]%R [3]%R = Py.Raise Py.ValueError.
Proof. reflexivity. Qed.

Example vecmat_rows_by_columns :
  Numpy.vecmat [1; -1]%R [[1; 2]; [3; 4]]%R = Py.Ok [-2; -2]%R.
Proof.
  unfold Numpy.vecmat. simpl. do 2 f_equal; [lra |]. f_equal. lra.
Qed.

Example setitem_out_of_range :
  Py.setitem [1; 2]%R 2 0%R = Py.Raise Py.IndexError.
Proof. reflexivity. Qed.

Example mux_is_well_shaped : Solver.well_shaped Examples.mux = true.
Proof. reflexivity. Qed.

Section Ties.
Import Py Numpy Solver Trajectory.
Local Open Scope R_scope.

Variable self : CaSuDaSolver.
Variable c : PCircuit.
Variable d : nat -> R.
Variable p0 : nat.

Let n := n_pbits c.

Lemma nth_update (t i : nat) (m : list R) :
  (i < n)%nat ->
  nth i (update self c d p0 t m) 0
  = nth i m 0
    * sign (survival self (nth i m 0) (current self c m i)
            - v_at c d p0 t i).
Proof. intros Hi. unfold update. now rewrite nth_map_seq. Qed.

Lemma nth_initial_spins (i : nat) :
  (i < n)%nat ->
  nth i (initial_spins c d p0) 0 = sign (0.5 - d (p0 + i)%nat).
Proof. intros Hi. unfold initial_spins. now rewrite nth_map_seq. Qed.

(** A first draw of exactly 1/2 makes the spin 0. *)
Lemma initial_tie (i : nat) :
  (i < n)%nat -> d (p0 + i)%nat = 0.5 ->
  nth i (initial_spins c d p0) 0 = 0.
Proof.
  intros Hi Hd. rewrite nth_initial_spins, Hd by exact Hi.
  replace (0.5 - 0.5) with 0 by lra. apply sign_zero.
Qed.

(** A draw equal to the survival value makes the spin 0. *)
Lemma update_tie (t i : nat) (m : list R) :
  (i < n)%nat ->
  v_at c d p0 t i = survival self (nth i m 0) (current self c m i) ->
  nth i (update self c d p0 t m) 0 = 0.
Proof.
  intros Hi Hv. rewrite nth_update, Hv by exact Hi.
  rewrite Rminus_diag, sign_zero. ring.
Qed.

(** A spin that is 0 stays 0. *)
Lemma update_zero (t i : nat) (m : list R) :
  (i < n)%nat -> nth i m 0 = 0 -> nth i (update self c d p0 t m) 0 = 0.
Proof.
  intros Hi Hm. rewrite nth_update, Hm by exact Hi. ring.
Qed.

Lemma spins_zero_forever (i : nat) :
  (i < n)%nat -> d (p0 + i)%nat = 0.5 ->
  forall t, nth i (spins self c d p0 t) 0 = 0.
Proof.
  intros Hi Hd. induction t as [|t IH]; simpl.
  - now apply initial_tie.
  - now apply update_zero.
Qed.

(** Away from a tie the update flips the spin when the draw is above the
    survival value and keeps it when the draw is below. *)
Lemma update_flips (t i : nat) (m : list R) :
  (i < n)%nat ->
  survival self (nth i m 0) (current self c m i) < v_at c d p0 t i ->
  nth i (update self c d p0 t m) 0 = - nth i m 0.
Proof.
  intros Hi Hv. rewrite nth_update by exact Hi.
  rewrite sign_neg by lra. ring.
Qed.

Lemma update_keeps (t i : nat) (m : list R) :
  (i < n)%nat ->
  v_at c d p0 t i < survival self (nth i m 0) (current self c m i) ->
  nth i (update self c d p0 t m) 0 = nth i m 0.
Proof.
  intros Hi Hv. rewrite nth_update by exact Hi.
  rewrite sign_pos by lra. ring.
Qed.

(** As long as no draw ties, every spin is +1 or -1. *)
Lemma spins_unit_without_ties (T : nat) :
  (forall i, (i < n)%nat -> d (p0 + i)%nat <> 0.5) ->
  (forall t i, (t < T)%nat -> (i < n)%nat ->
     v_at c d p0 t i
     <> survival self (nth i (spins self c d p0 t) 0)
          (current self c (spins self c d p0 t) i)) ->
  forall t i, (t <= T)%nat -> (i < n)%nat ->
    nth i (spins self c d p0 t) 0 = 1
    \/ nth i (spins self c d p0 t) 0 = -1.
Proof.
  intros Hinit Hstep. induction t as [|t IH]; intros i Ht Hi.
  - simpl. rewrite nth_initial_spins by exact Hi.
    destruct (Rtotal_order (d (p0 + i)%nat) 0.5) as [H | [H | H]].
    + left. apply sign_pos. lra.
    + now apply Hinit in H.
    + right. apply sign_neg. lra.
  - simpl. specialize (Hstep t i ltac:(lia) Hi).
    destruct (Rtotal_order (v_at c d p0 t i)
                (survival self (nth i (spins self c d p0 t) 0)
                   (current self c (spins self c d p0 t) i)))
      as [H | [H | H]].
    + rewrite update_keeps by assumption. apply IH; [lia | exact Hi].
    + contradiction.
    + rewrite update_flips by assumption.
      destruct (IH i ltac:(lia) Hi) as [-> | ->]; [right | left]; lra.
Qed.

End Ties.

(** ** Spins that leave {-1, +1} *)

Lemma singleton_nth (l : list R) :
  length l = 1%nat -> l = [nth 0 l 0%R].
Proof.
  destruct l as [|x [|y l]]; simpl; intros H; try discriminate.
  reflexivity.
Qed.

(** C3.  One unit without coupling or bias, dt = 1/2, i0 = 1,
    expected_mean = 0, one step; the first draw 1/4 makes the initial spin
    +1, and the second draw is exp(-1/2), which is the survival value of that
    unit.  The draw is not above the survival value, yet the spin that step 0
    records is 0: its sign was neither flipped nor preserved. *)
Theorem C3_tie_zeroes_spin :
  Solver.initial_m (seq 0 1) (Py.mkRng Examples.tie_tape 0)
  = Py.Ok ([1%R], Py.mkRng Examples.tie_tape 1)
  /\ Examples.tie_tape 1
     = Trajectory.survival Examples.one_step_solver 1
         (Trajectory.current Examples.one_step_solver (Examples.single 0)
            [1%R] 0)
  /\ exists Ih Eh g,
       Solver.solve Examples.one_step_solver (Examples.single 0)
         (Py.mkRng Examples.tie_tape 0)
       = Py.Ok ((Ih, [[0%R]], Eh), g).
Proof.
  assert (Hs : Examples.tie_tape 1
               = Trajectory.survival Examples.one_step_solver 1
                   (Trajectory.current Examples.one_step_solver
                      (Examples.single 0) [1%R] 0)).
  { unfold Trajectory.survival, Trajectory.current, Trajectory.threshold,
      Trajectory.sigma, Trajectory.J_at, Trajectory.h_at.
    simpl. rewrite arctanh_0. f_equal.
    replace (- (1) * (1 * (1 * 0 + 0 + 0) + 0))%R with 0%R by ring.
    rewrite exp_0. ring. }
  assert (Hinit : Trajectory.initial_spins (Examples.single 0)
                    Examples.tie_tape 0 = [1%R]).
  { unfold Trajectory.initial_spins. simpl. f_equal.
    apply sign_pos. lra. }
  split; [| split; [exact Hs |]].
  - pose proof (initial_m_spins (Examples.single 0) Examples.tie_tape 0)
      as H.
    rewrite Hinit in H. exact H.
  - assert (Hm : Trajectory.m_history Examples.one_step_solver
                   (Examples.single 0) Examples.tie_tape 0 = [[0%R]]).
    { unfold Trajectory.m_history. simpl map. f_equal.
      simpl Trajectory.spins.
      rewrite (singleton_nth (Trajectory.update _ _ _ _ _ _))
        by apply length_update.
      f_equal. apply update_tie; [simpl; lia |].
      rewrite Hinit. exact Hs. }
    eexists _, _, _.
    rewrite (@solve_trajectory Examples.one_step_solver (Examples.single 0)
               eq_refl Examples.tie_tape 0).
    rewrite Hm. reflexivity.
Qed.

(** C5.  The circuit and the solver of [examples/2_1_mux.py], with a
    generator whose first draw is 1/2: the run returns, and unit 0 is 0 in
    every row of the returned [m_history]. *)
Theorem C5_half_draw_gives_zero_spin :
  exists Ih Mh Eh g,
    Solver.solve Examples.mux_solver Examples.mux
      (Py.mkRng Examples.half_first_tape 0)
    = Py.Ok ((Ih, Mh, Eh), g)
    /\ length Mh = Solver.Nt Examples.mux_solver
    /\ forall t, (t < Solver.Nt Examples.mux_solver)%nat ->
         nth 0 (nth t Mh []) 0%R = 0%R.
Proof.
  eexists _, _, _, _.
  split; [apply solve_trajectory; reflexivity |].
  split; [unfold Trajectory.m_history; now rewrite length_map, length_seq |].
  intros t Ht. rewrite nth_m_history by exact Ht.
  apply spins_zero_forever.
  - unfold Examples.mux. simpl. lia.
  - reflexivity.
Qed.

(** ** The solver theorems on the circuit of [examples/2_1_mux.py] *)

(** C1 on the circuit and the solver of the example. *)
Lemma C1_input_currents_witness :
  Solver.well_shaped Examples.mux = true
  /\ exists m0 g1 Ih Mh Eh g2,
       Solver.initial_m (seq 0 (Solver.n_pbits Examples.mux))
         (Py.mkRng Examples.quarter_tape 0)
       = Py.Ok (m0, g1)
       /\ Solver.solve Examples.mux_solver Examples.mux
            (Py.mkRng Examples.quarter_tape 0)
          = Py.Ok ((Ih, Mh, Eh), g2)
       /\ length Ih = Solver.Nt Examples.mux_solver
       /\ forall t, (t < Solver.Nt Examples.mux_solver)%nat ->
            let m := match t with O => m0 | S t' => nth t' Mh [] end in
            length (nth t Ih []) = Solver.n_pbits Examples.mux
            /\ forall i, (i < Solver.n_pbits Examples.mux)%nat ->
                 nth i (nth t Ih []) 0%R
                 = (Solver.i0 Examples.mux_solver
                    * (Trajectory.sigma (Solver.n_pbits Examples.mux)
                         (fun j => nth j m 0
                                   * Trajectory.J_at Examples.mux i j)
                       + Trajectory.h_at Examples.mux i))%R.
Proof.
  split.
  - reflexivity.
  - apply (C1_input_currents Examples.mux_solver Examples.mux
             Examples.quarter_tape 0).
    reflexivity.
Defined.

(** C4 on a single unit of bias 2. *)
Lemma C4_energy_witness :
  Solver.well_shaped (Examples.single 2) = true
  /\ exists Ih Mh Eh g,
       Solver.solve Examples.mux_solver (Examples.single 2)
         (Py.mkRng Examples.quarter_tape 0)
       = Py.Ok ((Ih, Mh, Eh), g)
       /\ length Mh = Solver.Nt Examples.mux_solver
       /\ length Eh = Solver.Nt Examples.mux_solver
       /\ forall t, (t < Solver.Nt Examples.mux_solver)%nat ->
            length (nth t Mh []) = 1%nat
            /\ nth t Eh 0%R
               = (Solver.i0 Examples.mux_solver * nth 0 (nth t Mh []) 0 * 2)%R.
Proof.
  split.
  - reflexivity.
  - destruct (C4_energy Examples.mux_solver (Examples.single 2)
                Examples.quarter_tape 0 eq_refl)
      as (m0 & g1 & Ih & Mh & Eh & g & _ & Hsolve & HlenM & HlenE
          & Hstep & Hsingle).
    exists Ih, Mh, Eh, g.
    split; [exact Hsolve |]. split; [exact HlenM |]. split; [exact HlenE |].
    intros t Ht. split.
    + exact (proj1 (Hstep t Ht)).
    + exact (Hsingle 2%R eq_refl eq_refl eq_refl t Ht).
Defined.

(** C6 on the example, the second generator seven cells ahead of the
    first. *)
Lemma C6_replay_witness :
  Solver.well_shaped Examples.mux = true
  /\ (forall k, (k < 6 + 25000 * 6)%nat ->
        Examples.quarter_tape (0 + k)%nat = Examples.quarter_tape (7 + k)%nat)
  /\ exists out,
       Solver.solve Examples.mux_solver Examples.mux
         (Py.mkRng Examples.quarter_tape 0)
       = Py.Ok (out, Py.mkRng Examples.quarter_tape (0 + 6 + 25000 * 6))
       /\ Solver.solve Examples.mux_solver Examples.mux
            (Py.mkRng Examples.quarter_tape 7)
          = Py.Ok (out, Py.mkRng Examples.quarter_tape (7 + 6 + 25000 * 6)).
Proof.
  split; [reflexivity |].
  split; [intros k _; reflexivity |].
  apply (C6_replay Examples.mux_solver Examples.mux
           Examples.quarter_tape Examples.quarter_tape 0 7).
  - reflexivity.
  - intros k _. reflexivity.
Defined.

(** ** Dictionaries *)

Section Dicts.
Import Obj.
Context {V : Type}.

Lemma dict_get_set_same (d : dict V) (k : string) (v : V) :
  dict_get (dict_set d k v) k = Some v.
Proof.
  induction d as [|[k' v'] d IH]; simpl.
  - now rewrite String.eqb_refl.
  - destruct (String.eqb k' k) eqn:E; simpl; rewrite E; auto.
Qed.

Lemma dict_get_set_other (d : dict V) (k k' : string) (v : V) :
  k <> k' -> dict_get (dict_set d k v) k' = dict_get d k'.
Proof.
  intros Hk. induction d as [|[k0 v0] d IH]; simpl.
  - apply String.eqb_neq in Hk. now rewrite Hk.
  - destruct (String.eqb k0 k) eqn:E; simpl.
    + apply String.eqb_eq in E. subst k0.
      apply String.eqb_neq in Hk. now rewrite Hk.
    + now rewrite IH.
Qed.

Lemma dict_set_fresh (d : dict V) (k : string) (v : V) :
  ~ In k (keys d) -> dict_set d k v = d ++ [(k, v)].
Proof.
  induction d as [|[k' v'] d IH]; simpl; intros Hk.
  - reflexivity.
  - destruct (String.eqb k' k) eqn:E.
    + apply String.eqb_eq in E. tauto.
    + rewrite IH by tauto. reflexivity.
Qed.

(** A comprehension over items with distinct keys keeps them as they
    are. *)
Lemma dict_of_distinct (items : list (string * V)) :
  NoDup (keys items) -> dict_of items = items.
Proof.
  unfold dict_of.
  assert (H : forall acc,
             NoDup (keys (acc ++ items)) ->
             fold_left (fun d kv => dict_set d (fst kv) (snd kv)) items acc
             = acc ++ items).
  { induction items as [|[k v] items IH]; intros acc Hnd; simpl.
    - now rewrite app_nil_r.
    - rewrite dict_set_fresh.
      + rewrite IH; rewrite <- app_assoc; [reflexivity | exact Hnd].
      + unfold keys in *. rewrite map_app in Hnd. simpl in Hnd.
        apply NoDup_remove_2 in Hnd. intros Hin. apply Hnd.
        apply in_or_app. now left. }
  intros Hnd. apply (H []). exact Hnd.
Qed.

Lemma dict_get_nth (d : dict V) (i : nat) (k : string) (v : V) :
  NoDup (keys d) -> nth_error d i = Some (k, v) -> dict_get d k = Some v.
Proof.
  revert i. induction d as [|[k' v'] d IH]; intros i Hnd Hi.
  - destruct i; discriminate.
  - simpl in Hnd. inversion Hnd as [|? ? Hnotin Hnd']; subst.
    destruct i as [|i]; simpl in *.
    + injection Hi as -> ->. now rewrite String.eqb_refl.
    + destruct (String.eqb k' k) eqn:E.
      * apply String.eqb_eq in E. subst k'. exfalso. apply Hnotin.
        apply nth_error_In in Hi.
        change k with (fst (k, v)). now apply in_map.
      * eapply IH; eassumption.
Qed.

End Dicts.

(** ** Ports of a [pcircuit] class *)

Section Ports.
Import Obj Exn Decorators.
Local Open Scope string_scope.

Lemma ports_in_In (items : list (string * value)) (nm : string) (p : Port) :
  In (nm, p) (ports_in items) <-> In (nm, VPort p) items.
Proof.
  induction items as [|[k v] items IH]; simpl; [tauto |].
  destruct v; simpl; rewrite IH;
    intuition (try discriminate; try congruence).
Qed.

Lemma ports_in_keys (items : list (string * value)) (nm : string) :
  In nm (keys (ports_in items)) -> In nm (keys items).
Proof.
  unfold keys. intros H. apply in_map_iff in H as ([k p] & <- & H).
  apply ports_in_In in H. simpl.
  change k with (fst (k, VPort p)). now apply in_map.
Qed.

Lemma ports_in_distinct (items : list (string * value)) :
  NoDup (keys items) -> NoDup (keys (ports_in items)).
Proof.
  induction items as [|[k v] items IH]; simpl; intros Hnd.
  - constructor.
  - inversion Hnd as [|? ? Hnotin Hnd']; subst.
    destruct v; simpl; auto.
    constructor; [| auto].
    intros H. apply Hnotin. now apply ports_in_keys.
Qed.

Lemma port_attrs_declared (cls : pyclass) :
  NoDup (keys (cls_dict cls)) ->
  port_attrs cls = ports_in (cls_dict cls).
Proof.
  intros Hnd. unfold port_attrs.
  apply dict_of_distinct. now apply ports_in_distinct.
Qed.

Lemma swap_enumerate {A} (l : list A) (off : nat) :
  map (fun p => (snd p, fst p)) (combine (seq off (length l)) l)
  = combine l (seq off (length l)).
Proof.
  revert off. induction l as [|x l IH]; intros off; simpl.
  - reflexivity.
  - now rewrite IH.
Qed.

Lemma keys_combine_seq (l : list string) (off : nat) :
  keys (combine l (seq off (length l))) = l.
Proof.
  revert off. induction l as [|x l IH]; intros off; simpl.
  - reflexivity.
  - now rewrite IH.
Qed.

Lemma nth_error_combine_seq (l : list string) (off k : nat) (x : string) :
  nth_error l k = Some x ->
  nth_error (combine l (seq off (length l))) k = Some (x, (off + k)%nat).
Proof.
  revert off k. induction l as [|y l IH]; intros off k Hk.
  - destruct k; discriminate.
  - destruct k as [|k]; simpl in *.
    + injection Hk as ->. now rewrite Nat.add_0_r.
    + rewrite (IH (S off) k Hk). f_equal. f_equal. lia.
Qed.

(** Line 119 gives every declared port its position. *)
Lemma port_indices_position (attrs : dict Port) (k : nat) (nm : string)
    (p : Port) :
  NoDup (keys attrs) -> nth_error attrs k = Some (nm, p) ->
  dict_get (port_indices attrs) nm = Some k.
Proof.
  intros Hnd Hk. unfold port_indices, enumerate.
  rewrite swap_enumerate.
  assert (Hkeys : nth_error (keys attrs) k = Some nm).
  { unfold keys. rewrite nth_error_map, Hk. reflexivity. }
  rewrite dict_of_distinct by now rewrite keys_combine_seq.
  apply dict_get_nth with (i := k).
  - now rewrite keys_combine_seq.
  - now rewrite (nth_error_combine_seq _ 0 _ Hkeys).
Qed.

(** Lines 145 to 149 set one attribute per declared port and leave the
    other attributes alone. *)
Lemma bind_ports_spec (indices : dict nat) (id : nat) :
  forall (ports : list (string * Port)) (inst : dict value) (off : nat),
    NoDup (keys ports) ->
    (forall k nm p, nth_error ports k = Some (nm, p) ->
                    dict_get indices nm = Some (off + k)%nat) ->
    exists inst',
      bind_ports indices id ports inst = Ok inst'
      /\ (forall k nm p, nth_error ports k = Some (nm, p) ->
            dict_get inst' nm
            = Some (VPort {| name := name p; circuit := Some id;
                             index := Some (off + k)%nat |}))
      /\ (forall nm, ~ In nm (keys ports) ->
            dict_get inst' nm = dict_get inst nm).
Proof.
  induction ports as [|[nm0 q0] ports IH]; intros inst off Hnd Hidx.
  - exists inst. split; [reflexivity |]. split; [| reflexivity].
    intros k nm p Hk. destruct k; discriminate.
  - simpl in Hnd. inversion Hnd as [|? ? Hnotin Hnd']; subst.
    simpl. rewrite (Hidx O nm0 q0 eq_refl). simpl.
    destruct (IH (dict_set inst nm0
                    (VPort {| name := name q0; circuit := Some id;
                              index := Some (off + 0)%nat |}))
                 (S off) Hnd') as (inst' & Hrun & Hports & Hrest).
    { intros k nm p Hk. rewrite (Hidx (S k) nm p Hk). f_equal. lia. }
    exists inst'. split; [exact Hrun |]. split.
    + intros [|k] nm p Hk; simpl in Hk.
      * injection Hk as <- <-.
        rewrite (Hrest nm0 Hnotin). apply dict_get_set_same.
      * rewrite (Hports k nm p Hk). do 4 f_equal. lia.
    + intros nm Hnm. simpl in Hnm.
      rewrite Hrest by tauto. apply dict_get_set_other. tauto.
Qed.

End Ports.

(** ** Construction of a [pcircuit] instance *)

Section Construction.
Import Obj Exn Decorators.
Local Open Scope string_scope.

Lemma shape_eqb_eq (a b : list Z) : shape_eqb a b = true <-> a = b.
Proof.
  revert b. induction a as [|x a IH]; intros [|y b]; simpl;
    try (split; [discriminate | discriminate]); [tauto |].
  rewrite andb_true_iff, Z.eqb_eq, IH.
  split; [intros [-> ->]; reflexivity | intros H; injection H; auto].
Qed.

Lemma shape_eqb_neq (a b : list Z) : shape_eqb a b = false <-> a <> b.
Proof.
  rewrite <- shape_eqb_eq. destruct (shape_eqb a b); split; intros H;
    congruence.
Qed.

Lemma dict_get_In {V} (d : dict V) (k : string) (v : V) :
  NoDup (keys d) -> In (k, v) d -> dict_get d k = Some v.
Proof.
  intros Hnd Hin. apply In_nth_error in Hin as [i Hi].
  now apply dict_get_nth with (i := i).
Qed.

(** An attribute that is absent or an array is not a declared port. *)
Lemma array_not_port (cls : pyclass) (a : string) :
  NoDup (keys (cls_dict cls)) ->
  dict_get (cls_dict cls) a = None
  \/ (exists arr, dict_get (cls_dict cls) a = Some (VArray arr)) ->
  ~ In a (keys (ports_in (cls_dict cls))).
Proof.
  intros Hnd Ha Hin. unfold keys in Hin.
  apply in_map_iff in Hin as ([k p] & Hk & Hin). simpl in Hk. subst k.
  apply ports_in_In in Hin. apply (dict_get_In _ _ _ Hnd) in Hin.
  destruct Ha as [Ha | [arr Ha]]; congruence.
Qed.

Variable n : Z.
Variable cls : pyclass.
Hypothesis distinct : NoDup (keys (cls_dict cls)).
Hypothesis counted : Z.of_nat (length (ports_in (cls_dict cls))) = n.

Let the_class : pcircuit_class :=
  {| pc_cls := cls;
     pc_n_pbits := n;
     pc_port_attrs := ports_in (cls_dict cls);
     pc_port_indices := port_indices (ports_in (cls_dict cls)) |}.

Lemma pcircuit_accepts : pcircuit n cls = Ok the_class.
Proof.
  unfold pcircuit. rewrite (port_attrs_declared _ distinct), counted.
  now rewrite Z.eqb_refl.
Qed.

(** Once both shape checks pass, [__new__] returns the instance: its [h]
    and [J] are the class attributes or the zero defaults, and every
    declared port is bound under its own name with its position. *)
Lemma pcircuit_new_returns (id : nat) :
  check_h cls n = Ok tt -> check_J cls n = Ok tt ->
  exists attrs,
    pcircuit_new the_class id = Ok (VObject id attrs)
    /\ (forall k nm p,
          nth_error (ports_in (cls_dict cls)) k = Some (nm, p) ->
          dict_get attrs nm
          = Some (VPort {| name := name p; circuit := Some id;
                           index := Some k |}))
    /\ (~ In "h" (keys (ports_in (cls_dict cls))) ->
        dict_get attrs "h"
        = Some (cls_getattr cls "h" (VArray (zeros [n; 1%Z]))))
    /\ (~ In "J" (keys (ports_in (cls_dict cls))) ->
        dict_get attrs "J"
        = Some (cls_getattr cls "J" (VArray (zeros [n; n])))).
Proof.
  intros Hh HJ. unfold pcircuit_new. simpl pc_cls. simpl pc_n_pbits.
  rewrite Hh, HJ. simpl Exn.bind.
  destruct (bind_ports_spec
              (port_indices (ports_in (cls_dict cls))) id
              (ports_in (cls_dict cls))
              [("n_pbits", VInt n);
               ("h", cls_getattr cls "h" (VArray (zeros [n; 1%Z])));
               ("J", cls_getattr cls "J" (VArray (zeros [n; n])));
               ("_connections", VDict)]
              O (ports_in_distinct _ distinct))
    as (attrs & Hrun & Hports & Hrest).
  { intros k nm p Hk. simpl.
    eapply port_indices_position; [| exact Hk].
    now apply ports_in_distinct. }
  exists attrs. simpl pc_port_indices. simpl pc_port_attrs.
  rewrite Hrun. simpl.
  split; [reflexivity |]. split; [exact Hports |].
  split; intros Hnot; rewrite (Hrest _ Hnot); reflexivity.
Qed.

End Construction.

Lemma existsb_eqb_In (x : string) (l : list string) :
  existsb (String.eqb x) l = true <-> In x l.
Proof.
  rewrite existsb_exists. split.
  - intros (y & Hy & E). apply String.eqb_eq in E. now subst.
  - intros H. exists x. split; [exact H | apply String.eqb_refl].
Qed.

Lemma distinct_NoDup (l : list string) : Obj.distinct l = true -> NoDup l.
Proof.
  induction l as [|x l IH]; simpl; intros H.
  - constructor.
  - apply andb_prop in H as [Hx Hl]. constructor; [| auto].
    intros Hin. apply existsb_eqb_In in Hin. rewrite Hin in Hx. discriminate.
Qed.

(** ** Port count *)

(** C8.  [pcircuit(n_pbits)(cls)] raises as soon as the class body declares
    a number of [Port] attributes other than [n_pbits], and the exception
    carries the class name and the names of the ports found.  When the body
    declares exactly [n_pbits] ports the class is returned, and every
    instance that [__new__] then builds has, under each port's attribute
    name, a port whose index is the position of that attribute among the
    declared ports. *)
Theorem C8_port_count (n_pbits : Z) (cls : Obj.pyclass) :
  Obj.distinct (Obj.keys (Obj.cls_dict cls)) = true ->
  let declared := Decorators.ports_in (Obj.cls_dict cls) in
  (Z.of_nat (length declared) <> n_pbits ->
     Decorators.pcircuit n_pbits cls
     = Exn.Raise (Exn.PortCountMismatch (Obj.cls_name cls) n_pbits
                    (length declared) (Obj.keys declared)))
  /\ (Z.of_nat (length declared) = n_pbits ->
        exists pc,
          Decorators.pcircuit n_pbits cls = Exn.Ok pc
          /\ forall id,
               Decorators.check_h cls n_pbits = Exn.Ok tt ->
               Decorators.check_J cls n_pbits = Exn.Ok tt ->
               exists attrs,
                 Decorators.pcircuit_new pc id
                 = Exn.Ok (Obj.VObject id attrs)
                 /\ forall k nm p,
                      nth_error declared k = Some (nm, p) ->
                      Obj.dict_get attrs nm
                      = Some (Obj.VPort
                                {| Obj.name := Obj.name p;
                                   Obj.circuit := Some id;
                                   Obj.index := Some k |})).
Proof.
  intros Hd declared. apply distinct_NoDup in Hd. split.
  - intros Hne. unfold Decorators.pcircuit.
    rewrite (port_attrs_declared _ Hd). fold declared.
    apply Z.eqb_neq in Hne. now rewrite Hne.
  - intros Heq. eexists. split; [now apply pcircuit_accepts |].
    intros id Hh HJ.
    destruct (@pcircuit_new_returns n_pbits cls Hd id Hh HJ)
      as (attrs & Hrun & Hports & _).
    exists attrs. split; [exact Hrun | exact Hports].
Qed.

(** C8 on the gate of the docstring: two units asked for, three ports
    found; and three units asked for, [input2] bound at position 1. *)
Lemma C8_port_count_witness :
  Obj.distinct (Obj.keys (Obj.cls_dict PslExamples.ANDGate)) = true
  /\ Decorators.pcircuit 2 PslExamples.ANDGate
     = Exn.Raise (Exn.PortCountMismatch "ANDGate" 2 3
                    ["input1"; "input2"; "output"]%string)
  /\ exists pc attrs,
       Decorators.pcircuit 3 PslExamples.ANDGate = Exn.Ok pc
       /\ Decorators.pcircuit_new pc 0 = Exn.Ok (Obj.VObject 0 attrs)
       /\ Obj.dict_get attrs "input2"
          = Some (Obj.VPort {| Obj.name := "input2";
                               Obj.circuit := Some 0%nat;
                               Obj.index := Some 1%nat |}).
Proof.
  split; [reflexivity |]. split.
  - apply (C8_port_count 2 PslExamples.ANDGate eq_refl). discriminate.
  - destruct (C8_port_count 3 PslExamples.ANDGate eq_refl)
      as [_ Hok].
    destruct (Hok eq_refl) as (pc & Hpc & Hnew).
    destruct (Hnew 0%nat eq_refl eq_refl) as (attrs & Hrun & Hports).
    exists pc, attrs. split; [exact Hpc |]. split; [exact Hrun |].
    exact (Hports 1%nat "input2"%string _ eq_refl).
Defined.

(** ** Shape checks *)

Section ShapeChecks.
Import Obj Exn Decorators.
Local Open Scope string_scope.

Variable n : Z.
Variable cls : pyclass.

Lemma check_h_absent :
  dict_get (cls_dict cls) "h" = None -> check_h cls n = Ok tt.
Proof. intros H. unfold check_h, cls_hasattr. now rewrite H. Qed.

Lemma check_h_array (a : ndarray) :
  dict_get (cls_dict cls) "h" = Some (VArray a) ->
  check_h cls n
  = if shape_eqb (shape a) [n; 1%Z] then Ok tt
    else Raise (ShapeMismatch_h n (shape a)).
Proof.
  intros H. unfold check_h, cls_hasattr, cls_getattr. rewrite H. simpl.
  now destruct (shape_eqb (shape a) [n; 1%Z]).
Qed.

Lemma check_J_absent :
  dict_get (cls_dict cls) "J" = None -> check_J cls n = Ok tt.
Proof. intros H. unfold check_J, cls_hasattr. now rewrite H. Qed.

Lemma check_J_array (b : ndarray) :
  dict_get (cls_dict cls) "J" = Some (VArray b) ->
  check_J cls n
  = if shape_eqb (shape b) [n; n] then Ok tt
    else Raise (ShapeMismatch_J n (shape b)).
Proof.
  intros H. unfold check_J, cls_hasattr, cls_getattr. rewrite H. simpl.
  now destruct (shape_eqb (shape b) [n; n]).
Qed.

(** A failing check is what [__new__] raises; the check of [h] comes
    first. *)
Lemma pcircuit_new_raises_h (pc : pcircuit_class) (id : nat) (e : exn) :
  pc_cls pc = cls -> pc_n_pbits pc = n ->
  check_h cls n = Raise e -> pcircuit_new pc id = Raise e.
Proof.
  intros Hc Hn He. unfold pcircuit_new. now rewrite Hc, Hn, He.
Qed.

Lemma pcircuit_new_raises_J (pc : pcircuit_class) (id : nat) (e : exn) :
  pc_cls pc = cls -> pc_n_pbits pc = n ->
  check_h cls n = Ok tt -> check_J cls n = Raise e ->
  pcircuit_new pc id = Raise e.
Proof.
  intros Hc Hn Hh He. unfold pcircuit_new. now rewrite Hc, Hn, Hh, He.
Qed.

End ShapeChecks.

(** C7, as the claim has it, fails: a class with two ports, a [J] of shape
    (2, 2) and an [h] of shape (2,), whose length is 2, is not accepted;
    [__new__] raises the shape error of [h]. *)
Lemma C7_flat_h_rejected :
  match Decorators.pcircuit 2 PslExamples.FlatBias with
  | Exn.Ok pc =>
      Decorators.pcircuit_new pc 0
      = Exn.Raise (Exn.ShapeMismatch_h 2 [2%Z])
  | Exn.Raise _ => False
  end.
Proof. reflexivity. Qed.

(** C7, amended.  For a class that declares [n] ports and whose [h] and [J],
    where supplied, are arrays: [__new__] raises the shape error of [h] when
    the supplied [h] has a shape other than (n, 1), which covers every [h]
    whose length is not [n] and also the [h] of shape (n,); it raises a shape
    error when the supplied [J] has a shape other than (n, n); otherwise it
    returns the instance, whose [h] and [J] are the supplied arrays, or the
    zero arrays of shape (n, 1) and (n, n) for those not supplied. *)
Theorem C7_shape_checks (n : Z) (cls : Obj.pyclass) (id : nat) :
  let supplied := Obj.dict_get (Obj.cls_dict cls) in
  Obj.distinct (Obj.keys (Obj.cls_dict cls)) = true ->
  Z.of_nat (length (Decorators.ports_in (Obj.cls_dict cls))) = n ->
  (supplied "h"%string = None
   \/ exists a, supplied "h"%string = Some (Obj.VArray a)) ->
  (supplied "J"%string = None
   \/ exists b, supplied "J"%string = Some (Obj.VArray b)) ->
  exists pc,
    Decorators.pcircuit n cls = Exn.Ok pc
    /\ (forall a, supplied "h"%string = Some (Obj.VArray a) ->
          Obj.shape a <> [n; 1%Z] ->
          Decorators.pcircuit_new pc id
          = Exn.Raise (Exn.ShapeMismatch_h n (Obj.shape a)))
    /\ (forall a, supplied "h"%string = Some (Obj.VArray a) ->
          Obj.shape a = [n] ->
          Decorators.pcircuit_new pc id
          = Exn.Raise (Exn.ShapeMismatch_h n [n]))
    /\ (forall b, supplied "J"%string = Some (Obj.VArray b) ->
          Obj.shape b <> [n; n] ->
          exists e, Decorators.pcircuit_new pc id = Exn.Raise e
                    /\ Exn.is_ShapeMismatch e = true)
    /\ ((forall a, supplied "h"%string = Some (Obj.VArray a) ->
           Obj.shape a = [n; 1%Z]) ->
        (forall b, supplied "J"%string = Some (Obj.VArray b) ->
           Obj.shape b = [n; n]) ->
        exists attrs,
          Decorators.pcircuit_new pc id = Exn.Ok (Obj.VObject id attrs)
          /\ Obj.dict_get attrs "h"
             = Some (match supplied "h"%string with
                     | Some v => v
                     | None => Obj.VArray (Obj.zeros [n; 1%Z])
                     end)
          /\ Obj.dict_get attrs "J"
             = Some (match supplied "J"%string with
                     | Some v => v
                     | None => Obj.VArray (Obj.zeros [n; n])
                     end)).
Proof.
  intros supplied Hd Hn Hh HJ. apply distinct_NoDup in Hd.
  eexists. split; [now apply pcircuit_accepts |].
  assert (Hrej : forall a, supplied "h"%string = Some (Obj.VArray a) ->
            Obj.shape a <> [n; 1%Z] ->
            Decorators.check_h cls n
            = Exn.Raise (Exn.ShapeMismatch_h n (Obj.shape a))).
  { intros a Ha Hne. rewrite (check_h_array n cls Ha).
    apply shape_eqb_neq in Hne. now rewrite Hne. }
  split; [| split; [| split]].
  - intros a Ha Hne.
    apply pcircuit_new_raises_h with (n := n) (cls := cls); auto.
  - intros a Ha Hflat. rewrite <- Hflat.
    apply pcircuit_new_raises_h with (n := n) (cls := cls); auto.
    apply Hrej; [exact Ha |]. rewrite Hflat. discriminate.
  - intros b Hb Hne.
    assert (HJr : Decorators.check_J cls n
                  = Exn.Raise (Exn.ShapeMismatch_J n (Obj.shape b))).
    { rewrite (check_J_array n cls Hb).
      apply shape_eqb_neq in Hne. now rewrite Hne. }
    destruct Hh as [Hh | [a Ha]].
    + exists (Exn.ShapeMismatch_J n (Obj.shape b)). split; [| reflexivity].
      apply pcircuit_new_raises_J with (n := n) (cls := cls); auto.
      now apply check_h_absent.
    + destruct (Obj.shape_eqb (Obj.shape a) [n; 1%Z]) eqn:E.
      * exists (Exn.ShapeMismatch_J n (Obj.shape b)).
        split; [| reflexivity].
        apply pcircuit_new_raises_J with (n := n) (cls := cls); auto.
        rewrite (check_h_array n cls Ha). now rewrite E.
      * exists (Exn.ShapeMismatch_h n (Obj.shape a)).
        split; [| reflexivity].
        apply pcircuit_new_raises_h with (n := n) (cls := cls); auto.
        apply Hrej; [exact Ha |]. now apply shape_eqb_neq.
  - intros Hhs HJs.
    assert (Hch : Decorators.check_h cls n = Exn.Ok tt).
    { destruct Hh as [Hh | [a Ha]]; [now apply check_h_absent |].
      rewrite (check_h_array n cls Ha).
      rewrite (proj2 (shape_eqb_eq _ _) (Hhs a Ha)). reflexivity. }
    assert (HcJ : Decorators.check_J cls n = Exn.Ok tt).
    { destruct HJ as [HJ | [b Hb]]; [now apply check_J_absent |].
      rewrite (check_J_array n cls Hb).
      rewrite (proj2 (shape_eqb_eq _ _) (HJs b Hb)). reflexivity. }
    destruct (@pcircuit_new_returns n cls Hd id Hch HcJ)
      as (attrs & Hrun & _ & Hhv & HJv).
    exists attrs. split; [exact Hrun |].
    split.
    + rewrite Hhv by (apply array_not_port; assumption).
      unfold Decorators.cls_getattr. reflexivity.
    + rewrite HJv by (apply array_not_port; assumption).
      unfold Decorators.cls_getattr. reflexivity.
Qed.

(** C7 on a class whose [h] is a column of length 2: it is accepted. *)
Lemma C7_shape_checks_witness :
  Obj.distinct (Obj.keys (Obj.cls_dict PslExamples.ColumnBias)) = true
  /\ Z.of_nat (length (Decorators.ports_in
                         (Obj.cls_dict PslExamples.ColumnBias))) = 2%Z
  /\ exists pc attrs,
       Decorators.pcircuit 2 PslExamples.ColumnBias = Exn.Ok pc
       /\ Decorators.pcircuit_new pc 5 = Exn.Ok (Obj.VObject 5 attrs)
       /\ Obj.dict_get attrs "h"
          = Some (Obj.VArray {| Obj.shape := [2%Z; 1%Z];
                                Obj.data := [1; 1]%R |}).
Proof.
  split; [reflexivity |]. split; [reflexivity |].
  destruct (C7_shape_checks (n := 2) PslExamples.ColumnBias 5
              eq_refl eq_refl
              (or_intror (ex_intro _ _ eq_refl))
              (or_intror (ex_intro _ _ eq_refl)))
    as (pc & Hpc & _ & _ & _ & Hacc).
  destruct Hacc as (attrs & Hrun & Hhv & _).
  - intros a Ha. injection Ha as <-. reflexivity.
  - intros b Hb. injection Hb as <-. reflexivity.
  - exists pc, attrs. split; [exact Hpc |]. split; [exact Hrun |].
    exact Hhv.
Defined.

(** ** Registration into the module context *)

Section Registration.
Import Obj Exn Decorators.
Local Open Scope string_scope.
Context {ops : ModuleContextOps}.

Lemma heap_get_bound (s : heap) (loc : nat) (c : ModuleContext) :
  heap_get s loc = Ok c -> (loc < length s)%nat.
Proof.
  unfold heap_get. intros H. apply nth_error_Some.
  destruct (nth_error s loc); [discriminate | discriminate H].
Qed.

Lemma heap_get_set (s : heap) (loc : nat) (c : ModuleContext) :
  (loc < length s)%nat -> heap_get (heap_set s loc c) loc = Ok c.
Proof.
  revert loc. induction s as [|x s IH]; intros [|loc] H; simpl in *;
    try lia; [reflexivity |].
  apply IH. lia.
Qed.

Lemma heap_set_twice (s : heap) (loc : nat) (c c' : ModuleContext) :
  heap_set (heap_set s loc c) loc c' = heap_set s loc c'.
Proof.
  revert loc. induction s as [|x s IH]; intros [|loc]; simpl;
    try reflexivity.
  now rewrite IH.
Qed.

Lemma heap_set_same (s : heap) (loc : nat) (c : ModuleContext) :
  heap_get s loc = Ok c -> heap_set s loc c = s.
Proof.
  unfold heap_get. revert loc.
  induction s as [|x s IH]; intros [|loc] H; simpl in *;
    try discriminate.
  - now injection H as ->.
  - now rewrite IH.
Qed.

Lemma length_heap_set (s : heap) (loc : nat) (c : ModuleContext) :
  length (heap_set s loc c) = length s.
Proof.
  revert loc. induction s as [|x s IH]; intros [|loc]; simpl;
    try reflexivity.
  now rewrite IH.
Qed.

(** Lines 50 to 52 hand to [register_instance], in the order of
    [vars(self)], the values that have an attribute [n_pbits], and no
    other. *)
Lemma register_attrs_filter (self : dict value) (loc : nat) :
  context_of self = Ok loc ->
  forall (items : list (string * value)) (s : heap) (ctx : ModuleContext),
    heap_get s loc = Ok ctx ->
    register_attrs self items s
    = Ok (heap_set s loc
            (fold_left register_instance
               (filter (fun v => hasattr v "n_pbits") (values items))
               ctx)).
Proof.
  intros Hself. induction items as [|[k v] items IH]; intros s ctx Hget.
  - simpl. now rewrite heap_set_same.
  - unfold values. cbn [register_attrs map snd filter]. fold (values items).
    destruct (hasattr v "n_pbits") eqn:E.
    + rewrite Hself. cbn [Exn.bind]. rewrite Hget. cbn [Exn.bind fold_left].
      rewrite (IH _ (register_instance ctx v)).
      * now rewrite heap_set_twice.
      * apply heap_get_set. eapply heap_get_bound. exact Hget.
    + now apply IH.
Qed.

(** An [__init__] that does not assign [_context] leaves it as
    [__new__] set it. *)
Lemma init_keeps_context (init : list (string * value)) :
  existsb (String.eqb "_context") (keys init) = false ->
  forall d,
    dict_get
      (fold_left (fun d kv => dict_set d (fst kv) (snd kv)) init d)
      "_context"
    = dict_get d "_context".
Proof.
  induction init as [|[k v] init IH]; simpl; intros Hk d.
  - reflexivity.
  - apply orb_false_elim in Hk as [Hk Hrest].
    rewrite IH by exact Hrest. apply dict_get_set_other.
    apply String.eqb_neq. now rewrite String.eqb_sym.
Qed.

(** One construction: [__new__], then [__init__]. *)
Lemma construct_registers (mc : module_class)
    (init : list (string * value)) (s : heap) (ctx : ModuleContext) :
  existsb (String.eqb "_context") (keys init) = false ->
  heap_get s (mc_context mc) = Ok ctx ->
  let self :=
    fold_left (fun d kv => dict_set d (fst kv) (snd kv)) init
              [("_context", VContext (mc_context mc))] in
  construct mc init s
  = Ok (self,
        heap_set s (mc_context mc)
          (fold_left register_instance (circuits_of self) ctx))
  /\ context_of self = Ok (mc_context mc).
Proof.
  intros Hinit Hget self.
  assert (Hctx : context_of self = Ok (mc_context mc)).
  { unfold context_of, self. now rewrite init_keeps_context. }
  split; [| exact Hctx].
  unfold construct, module_init, module_new. simpl dict_set. fold self.
  rewrite (@register_attrs_filter self _ Hctx self s ctx Hget). reflexivity.
Qed.

End Registration.

Section Qualification.
Import Obj Exn Decorators Context.
Local Open Scope string_scope.



End Qualification.



(** ** One context for all the instances of a class *)

Section Sharing.
Import Obj Exn Decorators.
Local Open Scope string_scope.
Context {ops : ModuleContextOps}.

Lemma heap_get_last (s : heap) (c : ModuleContext) :
  heap_get (s ++ [c])%list (length s) = Ok c.
Proof.
  unfold heap_get. rewrite nth_error_app2 by lia.
  now rewrite Nat.sub_diag.
Qed.

Lemma module_synthesize_reads (self : dict value) (format : string)
    (s : heap) (loc : nat) (ctx : ModuleContext) :
  format = "sparse" \/ format = "dense" ->
  context_of self = Ok loc -> heap_get s loc = Ok ctx ->
  module_synthesize self format s = synthesize ctx format.
Proof.
  intros Hf Hself Hget. unfold module_synthesize.
  assert (Hin : existsb (String.eqb format) ["sparse"; "dense"] = true)
    by (destruct Hf as [-> | ->]; reflexivity).
  rewrite Hin. cbn [negb]. rewrite Hself. cbn [Exn.bind].
  rewrite Hget. reflexivity.
Qed.

End Sharing.

(** C10.  [module(cls)] makes one context.  Every instance constructed
    afterwards refers to that context and none is made for it; the second
    construction registers its circuits after those of the first; and
    [synthesize], called on either instance, is [synthesize] of that one
    context: after the second construction it covers, also when called on
    the first instance, the registrations of both. *)
Theorem C10_shared_context {ops : Decorators.ModuleContextOps}
    (cls : Obj.pyclass) (s : Decorators.heap)
    (init1 init2 : list (string * Obj.value)) (format : string) :
  existsb (String.eqb "_context") (Obj.keys init1) = false ->
  existsb (String.eqb "_context") (Obj.keys init2) = false ->
  format = "sparse"%string \/ format = "dense"%string ->
  let mc := fst (Decorators.module cls s) in
  let s0 := snd (Decorators.module cls s) in
  let loc := Decorators.mc_context mc in
  let register := fold_left Decorators.register_instance in
  s0 = s ++ [Decorators.new_context]
  /\ exists a s1 b s2,
       Decorators.construct mc init1 s0 = Exn.Ok (a, s1)
       /\ Decorators.construct mc init2 s1 = Exn.Ok (b, s2)
       /\ length s2 = length s0
       /\ Decorators.context_of a = Exn.Ok loc
       /\ Decorators.context_of b = Exn.Ok loc
       /\ Decorators.heap_get s1 loc
          = Exn.Ok (register (Decorators.circuits_of a)
                      Decorators.new_context)
       /\ Decorators.heap_get s2 loc
          = Exn.Ok (register
                      (Decorators.circuits_of a ++ Decorators.circuits_of b)
                      Decorators.new_context)
       /\ Decorators.module_synthesize a format s1
          = Decorators.synthesize
              (register (Decorators.circuits_of a) Decorators.new_context)
              format
       /\ Decorators.module_synthesize a format s2
          = Decorators.synthesize
              (register
                 (Decorators.circuits_of a ++ Decorators.circuits_of b)
                 Decorators.new_context)
              format
       /\ Decorators.module_synthesize b format s2
          = Decorators.module_synthesize a format s2.
Proof.
  intros Hi1 Hi2 Hf mc s0 loc register.
  split; [reflexivity |].
  assert (Hget0 : Decorators.heap_get s0 loc = Exn.Ok Decorators.new_context)
    by apply heap_get_last.
  destruct (@construct_registers ops mc init1 s0 _ Hi1 Hget0) as [Hrun1 Hca].
  set (a := fold_left (fun d kv => Obj.dict_set d (fst kv) (snd kv)) init1
              [("_context"%string, Obj.VContext (Decorators.mc_context mc))])
    in *.
  set (s1 := Decorators.heap_set s0 (Decorators.mc_context mc)
               (fold_left Decorators.register_instance
                  (Decorators.circuits_of a) Decorators.new_context)) in *.
  assert (Hget1 : Decorators.heap_get s1 loc
                  = Exn.Ok (register (Decorators.circuits_of a)
                              Decorators.new_context)).
  { apply heap_get_set. eapply heap_get_bound. exact Hget0. }
  destruct (@construct_registers ops mc init2 s1 _ Hi2 Hget1) as [Hrun2 Hcb].
  set (b := fold_left (fun d kv => Obj.dict_set d (fst kv) (snd kv)) init2
              [("_context"%string, Obj.VContext (Decorators.mc_context mc))])
    in *.
  set (s2 := Decorators.heap_set s1 (Decorators.mc_context mc)
               (fold_left Decorators.register_instance
                  (Decorators.circuits_of b)
                  (register (Decorators.circuits_of a)
                     Decorators.new_context))) in *.
  assert (Hget2 : Decorators.heap_get s2 loc
                  = Exn.Ok (register
                              (Decorators.circuits_of a
                               ++ Decorators.circuits_of b)
                              Decorators.new_context)).
  { unfold register. rewrite fold_left_app.
    apply heap_get_set. unfold s1. rewrite length_heap_set.
    eapply heap_get_bound. exact Hget0. }
  exists a, s1, b, s2.
  split; [exact Hrun1 |]. split; [exact Hrun2 |].
  split; [unfold s2, s1; now rewrite !length_heap_set |].
  split; [exact Hca |]. split; [exact Hcb |].
  split; [exact Hget1 |]. split; [exact Hget2 |].
  split; [now apply module_synthesize_reads with (loc := loc) |].
  split; [now apply module_synthesize_reads with (loc := loc) |].
  rewrite (module_synthesize_reads b s2 Hf Hcb Hget2).
  now rewrite (module_synthesize_reads a s2 Hf Hca Hget2).
Qed.

(** C10 on two instances of one class: the gate of the second lands at
    offset 6, behind the two gates of the first. *)
Lemma C10_shared_context_witness :
  exists a s1 b s2,
    Decorators.construct (ops := Context.spec_context)
      (fst (Decorators.module (ops := Context.spec_context)
              PslExamples.MyCircuit []))
      [("gate1"%string, PslExamples.and_gate 1);
       ("gate2"%string, PslExamples.and_gate 2)]
      (snd (Decorators.module (ops := Context.spec_context)
              PslExamples.MyCircuit []))
    = Exn.Ok (a, s1)
    /\ Decorators.construct
         (fst (Decorators.module (ops := Context.spec_context)
                 PslExamples.MyCircuit []))
         [("gate1"%string, PslExamples.and_gate 3)] s1
       = Exn.Ok (b, s2)
    /\ Decorators.heap_get s1 0
       = Exn.Ok [(PslExamples.and_gate 1, 0%nat);
                 (PslExamples.and_gate 2, 3%nat)]
    /\ Decorators.heap_get s2 0
       = Exn.Ok [(PslExamples.and_gate 1, 0%nat);
                 (PslExamples.and_gate 2, 3%nat);
                 (PslExamples.and_gate 3, 6%nat)]
    /\ Decorators.module_synthesize a "dense" s2
       = Context.synthesize_regs
           [(PslExamples.and_gate 1, 0%nat);
            (PslExamples.and_gate 2, 3%nat);
            (PslExamples.and_gate 3, 6%nat)] "dense".
Proof.
  destruct (C10_shared_context (ops := Context.spec_context)
              PslExamples.MyCircuit []
              [("gate1"%string, PslExamples.and_gate 1);
               ("gate2"%string, PslExamples.and_gate 2)]
              [("gate1"%string, PslExamples.and_gate 3)]
              (format := "dense"%string)
              eq_refl eq_refl (or_intror eq_refl))
    as (_ & a & s1 & b & s2 & H1 & H2 & _ & _ & _ & G1 & G2 & _ & S2 & _).
  assert (E1 : Decorators.construct (ops := Context.spec_context)
                 (fst (Decorators.module (ops := Context.spec_context)
                         PslExamples.MyCircuit []))
                 [("gate1"%string, PslExamples.and_gate 1);
                  ("gate2"%string, PslExamples.and_gate 2)]
                 (snd (Decorators.module (ops := Context.spec_context)
                         PslExamples.MyCircuit []))
               = Exn.Ok
                   ([("_context"%string, Obj.VContext 0);
                     ("gate1"%string, PslExamples.and_gate 1);
                     ("gate2"%string, PslExamples.and_gate 2)],
                    [[(PslExamples.and_gate 1, 0%nat);
                      (PslExamples.and_gate 2, 3%nat)]]))
    by reflexivity.
  rewrite E1 in H1. injection H1 as <- <-.
  assert (E2 : Decorators.construct (ops := Context.spec_context)
                 (fst (Decorators.module (ops := Context.spec_context)
                         PslExamples.MyCircuit []))
                 [("gate1"%string, PslExamples.and_gate 3)]
                 [[(PslExamples.and_gate 1, 0%nat);
                   (PslExamples.and_gate 2, 3%nat)]]
               = Exn.Ok
                   ([("_context"%string, Obj.VContext 0);
                     ("gate1"%string, PslExamples.and_gate 3)],
                    [[(PslExamples.and_gate 1, 0%nat);
                      (PslExamples.and_gate 2, 3%nat);
                      (PslExamples.and_gate 3, 6%nat)]]))
    by reflexivity.
  rewrite E2 in H2. injection H2 as <- <-.
  eexists _, _, _, _.
  split; [exact E1 |]. split; [exact E2 |].
  split; [exact G1 |]. split; [exact G2 |]. exact S2.
Defined.


(* ================================================================== *)
(** * Part III.  Further properties of the code                        *)
(* ================================================================== *)

(** ** When [solve] returns *)

(** X1.  A solver with [Nt = 0] returns three empty histories for every
    circuit, well shaped or not: the circuit's [J] and [h] are never read,
    and the generator is [n_pbits] cells further, the draws of line 19. *)
Theorem X1_no_step_reads_no_matrix
    (self : Solver.CaSuDaSolver) (c : Solver.PCircuit)
    (d : nat -> R) (p0 : nat) :
  Solver.Nt self = 0%nat ->
  Solver.solve self c (Py.mkRng d p0)
  = Py.Ok (([], [], []), Py.mkRng d (p0 + Solver.n_pbits c)).
Proof.
  intros HNt. unfold Solver.solve.
  rewrite (bind_ok _ (initial_m_spins c d p0)), HNt. reflexivity.
Qed.

(** X1 on a circuit whose [J] and [h] fit no unit count. *)
Lemma X1_no_step_reads_no_matrix_witness :
  Solver.well_shaped Examples.ragged = false
  /\ Solver.solve Examples.idle_solver Examples.ragged
       (Py.mkRng Examples.quarter_tape 0)
     = Py.Ok (([], [], []), Py.mkRng Examples.quarter_tape 2).
Proof.
  split; [reflexivity |].
  apply (X1_no_step_reads_no_matrix Examples.idle_solver Examples.ragged
           Examples.quarter_tape 0).
  reflexivity.
Defined.

(** ** The shape of what [solve] returns *)

(** X3.  On a well-shaped circuit the three histories have [Nt] entries
    each, and every row of [I_history] and of [m_history] has [n_pbits]
    entries: the two lists of rows are rectangular, [Nt] by [n_pbits]. *)
Theorem X3_histories_rectangular
    (self : Solver.CaSuDaSolver) (c : Solver.PCircuit)
    (d : nat -> R) (p0 : nat) :
  Solver.well_shaped c = true ->
  exists Ih Mh Eh g,
    Solver.solve self c (Py.mkRng d p0) = Py.Ok ((Ih, Mh, Eh), g)
    /\ length Ih = Solver.Nt self
    /\ length Mh = Solver.Nt self
    /\ length Eh = Solver.Nt self
    /\ (forall row, In row Ih -> length row = Solver.n_pbits c)
    /\ (forall row, In row Mh -> length row = Solver.n_pbits c).
Proof.
  intros shaped. eexists _, _, _, _.
  split; [apply solve_trajectory; exact shaped |].
  unfold Trajectory.I_history, Trajectory.m_history, Trajectory.E_history.
  rewrite !length_map, !length_seq.
  repeat split; intros row Hrow; apply in_map_iff in Hrow as (t & <- & _).
  - apply length_currents.
  - apply length_spins.
Qed.

(** X3 on the example: 25000 rows of 6 entries. *)
Lemma X3_histories_rectangular_witness :
  Solver.well_shaped Examples.mux = true
  /\ exists Ih Mh Eh g,
       Solver.solve Examples.mux_solver Examples.mux
         (Py.mkRng Examples.quarter_tape 0) = Py.Ok ((Ih, Mh, Eh), g)
       /\ length Mh = 25000%nat
       /\ forall row, In row Mh -> length row = 6%nat.
Proof.
  split; [reflexivity |].
  destruct (X3_histories_rectangular Examples.mux_solver Examples.mux
              Examples.quarter_tape 0 eq_refl)
    as (Ih & Mh & Eh & g & Hrun & _ & HM & _ & _ & Hrows).
  exists Ih, Mh, Eh, g. split; [exact Hrun |]. split; [exact HM |].
  exact Hrows.
Defined.

(** ** The values the spins take *)

Section SpinValues.
Import Py Numpy Solver Trajectory.
Local Open Scope R_scope.

Lemma sign_cases (x : R) : sign x = -1 \/ sign x = 0 \/ sign x = 1.
Proof.
  unfold sign. destruct (total_order_T x 0) as [[H | H] | H]; auto.
Qed.

Variable self : CaSuDaSolver.
Variable c : PCircuit.
Variable d : nat -> R.
Variable p0 : nat.

Lemma spins_three_values (t i : nat) :
  (i < n_pbits c)%nat ->
  nth i (spins self c d p0 t) 0 = -1
  \/ nth i (spins self c d p0 t) 0 = 0
  \/ nth i (spins self c d p0 t) 0 = 1.
Proof.
  intros Hi. induction t as [|t IH]; simpl.
  - rewrite nth_initial_spins by exact Hi. apply sign_cases.
  - rewrite nth_update by exact Hi.
    destruct (sign_cases
                (survival self (nth i (spins self c d p0 t) 0)
                   (current self c (spins self c d p0 t) i)
                 - v_at c d p0 t i)) as [-> | [-> | ->]];
      destruct IH as [-> | [-> | ->]]; lra.
Qed.

Lemma spins_abs_le_1 (t i : nat) :
  Rabs (nth i (spins self c d p0 t) 0) <= 1.
Proof.
  destruct (Nat.lt_ge_cases i (n_pbits c)) as [Hi | Hi].
  - destruct (spins_three_values t Hi) as [-> | [-> | ->]];
      unfold Rabs; destruct (Rcase_abs _); lra.
  - rewrite nth_overflow by now rewrite length_spins.
    rewrite Rabs_R0. lra.
Qed.

Lemma spins_zero_stays (i t k : nat) :
  (i < n_pbits c)%nat ->
  nth i (spins self c d p0 t) 0 = 0 ->
  nth i (spins self c d p0 (t + k)) 0 = 0.
Proof.
  intros Hi H0. induction k as [|k IH].
  - now rewrite Nat.add_0_r.
  - rewrite Nat.add_succ_r. simpl. now apply update_zero.
Qed.

End SpinValues.

(** X5.  On a well-shaped circuit, whatever the draws, every entry of the
    returned [m_history] is -1, 0 or 1. *)
Theorem X5_spins_three_values
    (self : Solver.CaSuDaSolver) (c : Solver.PCircuit)
    (d : nat -> R) (p0 : nat) :
  Solver.well_shaped c = true ->
  exists Ih Mh Eh g,
    Solver.solve self c (Py.mkRng d p0) = Py.Ok ((Ih, Mh, Eh), g)
    /\ forall t i, (t < Solver.Nt self)%nat -> (i < Solver.n_pbits c)%nat ->
         nth i (nth t Mh []) 0%R = (-1)%R
         \/ nth i (nth t Mh []) 0%R = 0%R
         \/ nth i (nth t Mh []) 0%R = 1%R.
Proof.
  intros shaped. eexists _, _, _, _.
  split; [apply solve_trajectory; exact shaped |].
  intros t i Ht Hi. rewrite nth_m_history by exact Ht.
  now apply spins_three_values.
Qed.

(** X5 on the example. *)
Lemma X5_spins_three_values_witness :
  Solver.well_shaped Examples.mux = true
  /\ exists Ih Mh Eh g,
       Solver.solve Examples.mux_solver Examples.mux
         (Py.mkRng Examples.half_first_tape 0) = Py.Ok ((Ih, Mh, Eh), g)
       /\ forall t i, (t < 25000)%nat -> (i < 6)%nat ->
            nth i (nth t Mh []) 0%R = (-1)%R
            \/ nth i (nth t Mh []) 0%R = 0%R
            \/ nth i (nth t Mh []) 0%R = 1%R.
Proof.
  split; [reflexivity |].
  apply (X5_spins_three_values Examples.mux_solver Examples.mux
           Examples.half_first_tape 0).
  reflexivity.
Defined.

(** X6.  A spin that a step records as 0 is 0 in every later row: the loop
    never brings a unit back from 0. *)
Theorem X6_zero_spin_is_absorbing
    (self : Solver.CaSuDaSolver) (c : Solver.PCircuit)
    (d : nat -> R) (p0 : nat) :
  Solver.well_shaped c = true ->
  exists Ih Mh Eh g,
    Solver.solve self c (Py.mkRng d p0) = Py.Ok ((Ih, Mh, Eh), g)
    /\ forall t t' i,
         (t <= t')%nat -> (t' < Solver.Nt self)%nat ->
         (i < Solver.n_pbits c)%nat ->
         nth i (nth t Mh []) 0%R = 0%R -> nth i (nth t' Mh []) 0%R = 0%R.
Proof.
  intros shaped. eexists _, _, _, _.
  split; [apply solve_trajectory; exact shaped |].
  intros t t' i Htt Ht' Hi.
  rewrite !nth_m_history by lia. intros H0.
  replace (S t') with (S t + (t' - t))%nat by lia.
  now apply spins_zero_stays.
Qed.

(** X6 on the example with a first draw of 1/2: unit 0 is 0 in row 0, hence
    in the last row. *)
Lemma X6_zero_spin_is_absorbing_witness :
  Solver.well_shaped Examples.mux = true
  /\ exists Ih Mh Eh g,
       Solver.solve Examples.mux_solver Examples.mux
         (Py.mkRng Examples.half_first_tape 0) = Py.Ok ((Ih, Mh, Eh), g)
       /\ (nth 0 (nth 0 Mh []) 0%R = 0%R ->
           nth 0 (nth 24999 Mh []) 0%R = 0%R).
Proof.
  split; [reflexivity |].
  destruct (X6_zero_spin_is_absorbing Examples.mux_solver Examples.mux
              Examples.half_first_tape 0 eq_refl)
    as (Ih & Mh & Eh & g & Hrun & Habs).
  exists Ih, Mh, Eh, g. split; [exact Hrun |].
  apply (Habs 0%nat 24999%nat 0%nat).
  - apply Nat.leb_le. reflexivity.
  - apply Nat.ltb_lt. reflexivity.
  - apply Nat.ltb_lt. reflexivity.
Defined.

(** ** What one update does to a spin *)

(** X7.  In every step of a run on a well-shaped circuit, with [s] the
    survival value of the unit, computed from the spin the step started from
    and the current it recorded, and [v] the draw of the unit: the recorded
    spin is the old one when [v < s], its opposite when [s < v], and 0 when
    [v = s]. *)
Theorem X7_keep_flip_or_zero
    (self : Solver.CaSuDaSolver) (c : Solver.PCircuit)
    (d : nat -> R) (p0 : nat) :
  Solver.well_shaped c = true ->
  exists m0 g1 Ih Mh Eh g2,
    Solver.initial_m (seq 0 (Solver.n_pbits c)) (Py.mkRng d p0)
    = Py.Ok (m0, g1)
    /\ Solver.solve self c (Py.mkRng d p0) = Py.Ok ((Ih, Mh, Eh), g2)
    /\ forall t i, (t < Solver.Nt self)%nat -> (i < Solver.n_pbits c)%nat ->
         let m := match t with O => m0 | S t' => nth t' Mh [] end in
         let s := exp (- Solver.dt self
                       * exp (- nth i m 0
                              * (nth i (nth t Ih []) 0
                                 + Numpy.arctanh
                                     (Solver.expected_mean self))))%R
         in
         let v := d (p0 + Solver.n_pbits c + t * Solver.n_pbits c + i)%nat in
         ((v < s)%R -> nth i (nth t Mh []) 0%R = nth i m 0%R)
         /\ (v = s -> nth i (nth t Mh []) 0%R = 0%R)
         /\ ((s < v)%R -> nth i (nth t Mh []) 0%R = (- nth i m 0)%R).
Proof.
  intros shaped.
  exists (Trajectory.initial_spins c d p0),
         (Py.mkRng d (p0 + Solver.n_pbits c)).
  eexists _, _, _, _.
  split; [apply initial_m_spins |].
  split; [apply solve_trajectory; exact shaped |].
  intros t i Ht Hi m. subst m.
  rewrite (pre_update_spins self c d p0 Ht).
  rewrite nth_m_history, nth_I_history by exact Ht.
  unfold Trajectory.currents. rewrite (nth_map_seq _ _ Hi).
  simpl Trajectory.spins. cbv zeta.
  split; [| split]; intros Hv.
  - now apply update_keeps.
  - now apply update_tie.
  - now apply update_flips.
Qed.

(** X7 on the example. *)
Lemma X7_keep_flip_or_zero_witness :
  Solver.well_shaped Examples.mux = true
  /\ exists Ih Mh Eh g,
       Solver.solve Examples.mux_solver Examples.mux
         (Py.mkRng Examples.quarter_tape 0) = Py.Ok ((Ih, Mh, Eh), g).
Proof.
  split; [reflexivity |].
  destruct (X7_keep_flip_or_zero Examples.mux_solver Examples.mux
              Examples.quarter_tape 0 eq_refl)
    as (m0 & g1 & Ih & Mh & Eh & g2 & _ & Hrun & _).
  now exists Ih, Mh, Eh, g2.
Defined.

(** X8.  When no draw of line 19 is 1/2 and no draw of line 34 equals the
    survival value it is compared with, every entry of [m_history] is +1
    or -1. *)
Theorem X8_unit_spins_without_ties
    (self : Solver.CaSuDaSolver) (c : Solver.PCircuit)
    (d : nat -> R) (p0 : nat) :
  Solver.well_shaped c = true ->
  (forall i, (i < Solver.n_pbits c)%nat -> d (p0 + i)%nat <> 0.5%R) ->
  (forall t i, (t < Solver.Nt self)%nat -> (i < Solver.n_pbits c)%nat ->
     Trajectory.v_at c d p0 t i
     <> Trajectory.survival self
          (nth i (Trajectory.spins self c d p0 t) 0%R)
          (Trajectory.current self c (Trajectory.spins self c d p0 t) i)) ->
  exists Ih Mh Eh g,
    Solver.solve self c (Py.mkRng d p0) = Py.Ok ((Ih, Mh, Eh), g)
    /\ forall t i, (t < Solver.Nt self)%nat -> (i < Solver.n_pbits c)%nat ->
         nth i (nth t Mh []) 0%R = 1%R
         \/ nth i (nth t Mh []) 0%R = (-1)%R.
Proof.
  intros shaped Hinit Hstep. eexists _, _, _, _.
  split; [apply solve_trajectory; exact shaped |].
  intros t i Ht Hi. rewrite nth_m_history by exact Ht.
  apply spins_unit_without_ties with (T := Solver.Nt self); auto.
Qed.

Lemma quarter_draw_is_below :
  Trajectory.v_at (Examples.single 0) Examples.quarter_tape 0 0 0
  <> Trajectory.survival Examples.one_step_solver
       (nth 0 (Trajectory.spins Examples.one_step_solver (Examples.single 0)
                 Examples.quarter_tape 0 0) 0%R)
       (Trajectory.current Examples.one_step_solver (Examples.single 0)
          (Trajectory.spins Examples.one_step_solver (Examples.single 0)
             Examples.quarter_tape 0 0) 0).
Proof.
  assert (Hspin : Trajectory.spins Examples.one_step_solver
                    (Examples.single 0) Examples.quarter_tape 0 0 = [1%R]).
  { simpl. unfold Trajectory.initial_spins. simpl. f_equal.
    apply sign_pos. unfold Examples.quarter_tape. lra. }
  rewrite Hspin.
  unfold Trajectory.survival, Trajectory.current, Trajectory.threshold,
    Trajectory.sigma, Trajectory.J_at, Trajectory.h_at, Trajectory.v_at,
    Examples.quarter_tape.
  simpl. rewrite arctanh_0.
  replace (- (1) * (1 * (1 * 0 + 0 + 0) + 0))%R with 0%R by ring.
  rewrite exp_0.
  pose proof (exp_ineq1_le (- (1 / 2) * 1)). lra.
Qed.

(** X8 on one unit and one step, with draws of 1/4. *)
Lemma X8_unit_spins_without_ties_witness :
  exists Ih Mh Eh g,
    Solver.solve Examples.one_step_solver (Examples.single 0)
      (Py.mkRng Examples.quarter_tape 0) = Py.Ok ((Ih, Mh, Eh), g)
    /\ (nth 0 (nth 0 Mh []) 0%R = 1%R \/ nth 0 (nth 0 Mh []) 0%R = (-1)%R).
Proof.
  destruct (X8_unit_spins_without_ties Examples.one_step_solver
              (Examples.single 0) Examples.quarter_tape 0 eq_refl)
    as (Ih & Mh & Eh & g & Hrun & Hunit).
  - intros i _. unfold Examples.quarter_tape. lra.
  - intros t i Ht Hi. simpl in Ht, Hi.
    assert (t = 0%nat) as -> by lia. assert (i = 0%nat) as -> by lia.
    exact quarter_draw_is_below.
  - exists Ih, Mh, Eh, g. split; [exact Hrun |].
    apply Hunit; simpl; lia.
Defined.

(** ** Bounds on the currents and the energies *)

Section Bounds.
Import Py Numpy Solver Trajectory.
Local Open Scope R_scope.

Lemma sigma_le (n : nat) (f g : nat -> R) :
  (forall i, (i < n)%nat -> f i <= g i) -> sigma n f <= sigma n g.
Proof.
  revert f g. induction n as [|n IH]; intros f g H.
  - unfold sigma. simpl. lra.
  - rewrite !sigma_S_l.
    apply Rplus_le_compat; [apply H; lia |].
    apply IH. intros i Hi. apply H. lia.
Qed.

Lemma sigma_abs (n : nat) (f : nat -> R) :
  Rabs (sigma n f) <= sigma n (fun i => Rabs (f i)).
Proof.
  revert f. induction n as [|n IH]; intros f.
  - unfold sigma. simpl. rewrite Rabs_R0. lra.
  - rewrite !sigma_S_l.
    eapply Rle_trans; [apply Rabs_triang |].
    apply Rplus_le_compat_l. apply IH.
Qed.

Variable self : CaSuDaSolver.
Variable c : PCircuit.
Variable d : nat -> R.
Variable p0 : nat.

Let n := n_pbits c.

Lemma weighted_spin_le (t j : nat) (w : R) :
  Rabs (nth j (spins self c d p0 t) 0 * w) <= Rabs w.
Proof.
  rewrite Rabs_mult.
  pose proof (spins_abs_le_1 self c d p0 t j).
  pose proof (Rabs_pos w). pose proof (Rabs_pos (nth j (spins self c d p0 t) 0)).
  nra.
Qed.

Lemma current_bound (t i : nat) :
  Rabs (current self c (spins self c d p0 t) i)
  <= Rabs (i0 self)
     * (sigma n (fun j => Rabs (J_at c i j)) + Rabs (h_at c i)).
Proof.
  unfold current. fold n. rewrite Rabs_mult.
  apply Rmult_le_compat_l; [apply Rabs_pos |].
  eapply Rle_trans; [apply Rabs_triang |].
  apply Rplus_le_compat_r.
  eapply Rle_trans; [apply sigma_abs |].
  apply sigma_le. intros j _. apply weighted_spin_le.
Qed.

Lemma energy_bound (t : nat) :
  Rabs (energy self c (spins self c d p0 t))
  <= Rabs (i0 self)
     * (sigma n (fun i => Rabs (h_at c i))
        + 0.5 * sigma n (fun i => sigma n (fun j => Rabs (J_at c i j)))).
Proof.
  unfold energy. fold n. rewrite Rabs_mult.
  apply Rmult_le_compat_l; [apply Rabs_pos |].
  eapply Rle_trans; [apply Rabs_triang |].
  apply Rplus_le_compat.
  - eapply Rle_trans; [apply sigma_abs |].
    apply sigma_le. intros i _. apply weighted_spin_le.
  - rewrite Rabs_mult.
    replace (Rabs 0.5) with 0.5
      by (unfold Rabs; destruct (Rcase_abs 0.5); lra).
    apply Rmult_le_compat_l; [lra |].
    eapply Rle_trans; [apply sigma_abs |].
    apply sigma_le. intros i _.
    eapply Rle_trans; [apply sigma_abs |].
    apply sigma_le. intros j _.
    rewrite (Rmult_comm _ (nth j _ 0)).
    eapply Rle_trans; [apply weighted_spin_le |].
    apply weighted_spin_le.
Qed.

End Bounds.

(** X9.  On a well-shaped circuit every recorded current is bounded by the
    gain and the weights of the unit alone, whatever the draws:
    |I_history[t][i]| <= |i0| * (sum_j |J[i][j]| + |h_i|). *)
Theorem X9_current_bounded
    (self : Solver.CaSuDaSolver) (c : Solver.PCircuit)
    (d : nat -> R) (p0 : nat) :
  Solver.well_shaped c = true ->
  exists Ih Mh Eh g,
    Solver.solve self c (Py.mkRng d p0) = Py.Ok ((Ih, Mh, Eh), g)
    /\ forall t i, (t < Solver.Nt self)%nat -> (i < Solver.n_pbits c)%nat ->
         (Rabs (nth i (nth t Ih []) 0)
          <= Rabs (Solver.i0 self)
             * (Trajectory.sigma (Solver.n_pbits c)
                  (fun j => Rabs (Trajectory.J_at c i j))
                + Rabs (Trajectory.h_at c i)))%R.
Proof.
  intros shaped. eexists _, _, _, _.
  split; [apply solve_trajectory; exact shaped |].
  intros t i Ht Hi. rewrite nth_I_history by exact Ht.
  unfold Trajectory.currents. rewrite (nth_map_seq _ _ Hi).
  apply current_bound.
Qed.

(** X9 on the example. *)
Lemma X9_current_bounded_witness :
  Solver.well_shaped Examples.mux = true
  /\ exists Ih Mh Eh g,
       Solver.solve Examples.mux_solver Examples.mux
         (Py.mkRng Examples.quarter_tape 0) = Py.Ok ((Ih, Mh, Eh), g)
       /\ forall t i, (t < 25000)%nat -> (i < 6)%nat ->
            (Rabs (nth i (nth t Ih []) 0)
             <= Rabs 0.9
                * (Trajectory.sigma 6
                     (fun j => Rabs (Trajectory.J_at Examples.mux i j))
                   + Rabs (Trajectory.h_at Examples.mux i)))%R.
Proof.
  split; [reflexivity |].
  apply (X9_current_bounded Examples.mux_solver Examples.mux
           Examples.quarter_tape 0).
  reflexivity.
Defined.

(** X10.  On a well-shaped circuit every recorded energy is bounded by the
    gain and the weights alone, whatever the draws:
    |E_history[t]| <= |i0| * (sum_i |h_i| + 0.5 * sum_i sum_j |J[i][j]|). *)
Theorem X10_energy_bounded
    (self : Solver.CaSuDaSolver) (c : Solver.PCircuit)
    (d : nat -> R) (p0 : nat) :
  Solver.well_shaped c = true ->
  exists Ih Mh Eh g,
    Solver.solve self c (Py.mkRng d p0) = Py.Ok ((Ih, Mh, Eh), g)
    /\ forall t, (t < Solver.Nt self)%nat ->
         (Rabs (nth t Eh 0)
          <= Rabs (Solver.i0 self)
             * (Trajectory.sigma (Solver.n_pbits c)
                  (fun i => Rabs (Trajectory.h_at c i))
                + 0.5 * Trajectory.sigma (Solver.n_pbits c) (fun i =>
                          Trajectory.sigma (Solver.n_pbits c) (fun j =>
                            Rabs (Trajectory.J_at c i j)))))%R.
Proof.
  intros shaped. eexists _, _, _, _.
  split; [apply solve_trajectory; exact shaped |].
  intros t Ht. rewrite nth_E_history by exact Ht.
  apply energy_bound.
Qed.

(** X10 on the example. *)
Lemma X10_energy_bounded_witness :
  Solver.well_shaped Examples.mux = true
  /\ exists Ih Mh Eh g,
       Solver.solve Examples.mux_solver Examples.mux
         (Py.mkRng Examples.quarter_tape 0) = Py.Ok ((Ih, Mh, Eh), g)
       /\ forall t, (t < 25000)%nat ->
            (Rabs (nth t Eh 0)
             <= Rabs 0.9
                * (Trajectory.sigma 6
                     (fun i => Rabs (Trajectory.h_at Examples.mux i))
                   + 0.5 * Trajectory.sigma 6 (fun i =>
                             Trajectory.sigma 6 (fun j =>
                               Rabs (Trajectory.J_at Examples.mux i j)))))%R.
Proof.
  split; [reflexivity |].
  apply (X10_energy_bounded Examples.mux_solver Examples.mux
           Examples.quarter_tape 0).
  reflexivity.
Defined.

(** ** [synthesize] and its format *)

(** X13.  [synthesize] raises the format error for every format other than
    the two lower-case words, and does so before it looks at the context:
    also on an instance whose context is gone. *)
Theorem X13_format_checked_first {ops : Decorators.ModuleContextOps}
    (self : Obj.dict Obj.value) (format : string) (s : Decorators.heap) :
  format <> "sparse"%string -> format <> "dense"%string ->
  Decorators.module_synthesize self format s = Exn.Raise Exn.InvalidFormat.
Proof.
  intros Hs Hd. unfold Decorators.module_synthesize. simpl existsb.
  apply String.eqb_neq in Hs, Hd. now rewrite Hs, Hd.
Qed.

(** X13 on a capitalised format and an instance without attributes. *)
Lemma X13_format_checked_first_witness :
  Decorators.module_synthesize (ops := Context.spec_context) [] "Dense" []
  = Exn.Raise Exn.InvalidFormat.
Proof.
  apply (X13_format_checked_first (ops := Context.spec_context));
    discriminate.
Defined.

(** ** Classes do not share contexts *)

Section Apart.
Import Obj Exn Decorators.
Context {ops : ModuleContextOps}.

Lemma heap_set_elsewhere (s : heap) (loc loc' : nat) (c : ModuleContext) :
  loc' <> loc -> nth_error (heap_set s loc c) loc' = nth_error s loc'.
Proof.
  revert loc loc'. induction s as [|x s IH]; intros [|loc] [|loc'] H;
    simpl; try reflexivity; try contradiction.
  apply IH. lia.
Qed.

End Apart.

(** X14.  Two decorated classes get two contexts, and constructing an
    instance of the second changes no other cell of the heap: the context of
    the first class still holds what it held. *)
Theorem X14_classes_keep_apart {ops : Decorators.ModuleContextOps}
    (clsA clsB : Obj.pyclass) (s : Decorators.heap)
    (init : list (string * Obj.value)) :
  existsb (String.eqb "_context") (Obj.keys init) = false ->
  let mcA := fst (Decorators.module clsA s) in
  let s1 := snd (Decorators.module clsA s) in
  let mcB := fst (Decorators.module clsB s1) in
  let s2 := snd (Decorators.module clsB s1) in
  Decorators.mc_context mcA <> Decorators.mc_context mcB
  /\ exists b s3,
       Decorators.construct mcB init s2 = Exn.Ok (b, s3)
       /\ Decorators.heap_get s3 (Decorators.mc_context mcA)
          = Exn.Ok Decorators.new_context
       /\ forall loc, loc <> Decorators.mc_context mcB ->
            nth_error s3 loc = nth_error s2 loc.
Proof.
  intros Hinit mcA s1 mcB s2.
  assert (Hne : Decorators.mc_context mcA <> Decorators.mc_context mcB).
  { unfold mcA, mcB, s1. simpl. rewrite length_app. simpl. lia. }
  split; [exact Hne |].
  assert (HgetB : Decorators.heap_get s2 (Decorators.mc_context mcB)
                  = Exn.Ok Decorators.new_context) by apply heap_get_last.
  destruct (@construct_registers ops mcB init s2 _ Hinit HgetB)
    as [Hrun _].
  eexists _, _. split; [exact Hrun |]. split.
  - unfold Decorators.heap_get. rewrite heap_set_elsewhere by exact Hne.
    unfold s2, s1, mcA. simpl.
    rewrite nth_error_app1 by (rewrite length_app; simpl; lia).
    rewrite nth_error_app2 by lia. now rewrite Nat.sub_diag.
  - intros loc Hloc. now apply heap_set_elsewhere.
Qed.

(** X14 on the class of the docstring, decorated twice. *)
Lemma X14_classes_keep_apart_witness :
  exists b s3,
    Decorators.construct (ops := Context.spec_context)
      (fst (Decorators.module (ops := Context.spec_context)
              PslExamples.MyCircuit
              (snd (Decorators.module (ops := Context.spec_context)
                      PslExamples.MyCircuit []))))
      [("gate1"%string, PslExamples.and_gate 1)]
      (snd (Decorators.module (ops := Context.spec_context)
              PslExamples.MyCircuit
              (snd (Decorators.module (ops := Context.spec_context)
                      PslExamples.MyCircuit []))))
    = Exn.Ok (b, s3)
    /\ Decorators.heap_get s3 0 = Exn.Ok [].
Proof.
  destruct (X14_classes_keep_apart (ops := Context.spec_context)
              PslExamples.MyCircuit PslExamples.MyCircuit []
              [("gate1"%string, PslExamples.and_gate 1)] eq_refl)
    as (_ & b & s3 & Hrun & Hkeep & _).
  exists b, s3. split; [exact Hrun | exact Hkeep].
Defined.

(** ** The attributes of a [pcircuit] instance *)

Section InstanceAttributes.
Import Obj Exn Decorators.
Local Open Scope string_scope.

Variable n : Z.
Variable cls : pyclass.
Hypothesis distinct_keys : NoDup (keys (cls_dict cls)).

(** The four attributes that lines 126 to 129 set. *)
Let own : dict value :=
  [("n_pbits", VInt n);
   ("h", cls_getattr cls "h" (VArray (zeros [n; 1%Z])));
   ("J", cls_getattr cls "J" (VArray (zeros [n; n])));
   ("_connections", VDict)].

Lemma pcircuit_new_attributes (id : nat) :
  check_h cls n = Ok tt -> check_J cls n = Ok tt ->
  exists attrs,
    pcircuit_new
      {| pc_cls := cls; pc_n_pbits := n;
         pc_port_attrs := ports_in (cls_dict cls);
         pc_port_indices := port_indices (ports_in (cls_dict cls)) |} id
    = Ok (VObject id attrs)
    /\ (forall k nm p,
          nth_error (ports_in (cls_dict cls)) k = Some (nm, p) ->
          dict_get attrs nm
          = Some (VPort {| name := name p; circuit := Some id;
                           index := Some k |}))
    /\ (forall a, ~ In a (keys (ports_in (cls_dict cls))) ->
          dict_get attrs a = dict_get own a).
Proof.
  intros Hh HJ. unfold pcircuit_new. simpl pc_cls. simpl pc_n_pbits.
  rewrite Hh, HJ. simpl Exn.bind.
  destruct (bind_ports_spec
              (port_indices (ports_in (cls_dict cls))) id
              (ports_in (cls_dict cls)) own
              O (ports_in_distinct _ distinct_keys))
    as (attrs & Hrun & Hports & Hrest).
  { intros k nm p Hk. simpl.
    eapply port_indices_position; [| exact Hk].
    now apply ports_in_distinct. }
  exists attrs. simpl pc_port_indices. simpl pc_port_attrs.
  unfold own in Hrun. rewrite Hrun. simpl.
  split; [reflexivity |]. split; [exact Hports | exact Hrest].
Qed.

Lemma pcircuit_inv (pc : pcircuit_class) :
  pcircuit n cls = Ok pc ->
  pc = {| pc_cls := cls; pc_n_pbits := n;
          pc_port_attrs := ports_in (cls_dict cls);
          pc_port_indices := port_indices (ports_in (cls_dict cls)) |}.
Proof.
  unfold pcircuit. rewrite (port_attrs_declared _ distinct_keys).
  destruct (negb _); intros H; [discriminate |].
  now injection H as <-.
Qed.

Lemma pcircuit_new_inv (pc : pcircuit_class) (id : nat) (v : value) :
  pcircuit_new pc id = Ok v ->
  check_h (pc_cls pc) (pc_n_pbits pc) = Ok tt
  /\ check_J (pc_cls pc) (pc_n_pbits pc) = Ok tt.
Proof.
  unfold pcircuit_new.
  destruct (check_h (pc_cls pc) (pc_n_pbits pc)) as [[] | e];
    [| discriminate].
  destruct (check_J (pc_cls pc) (pc_n_pbits pc)) as [[] | e];
    [| discriminate].
  auto.
Qed.

End InstanceAttributes.

(** X15.  An instance that [__new__] returns has, besides one attribute per
    declared port, exactly four attributes: [n_pbits], equal to the unit
    count of the decorator, [h], [J] and an empty [_connections].  The ports
    are bound last, so these four hold for every name that is not the name
    of a declared port. *)
Theorem X15_instance_attributes (n : Z) (cls : Obj.pyclass) (id : nat) :
  Obj.distinct (Obj.keys (Obj.cls_dict cls)) = true ->
  Z.of_nat (length (Decorators.ports_in (Obj.cls_dict cls))) = n ->
  Decorators.check_h cls n = Exn.Ok tt ->
  Decorators.check_J cls n = Exn.Ok tt ->
  exists pc attrs,
    Decorators.pcircuit n cls = Exn.Ok pc
    /\ Decorators.pcircuit_new pc id = Exn.Ok (Obj.VObject id attrs)
    /\ forall a,
         ~ In a (Obj.keys (Decorators.ports_in (Obj.cls_dict cls))) ->
         Obj.dict_get attrs a
         = Obj.dict_get
             [("n_pbits"%string, Obj.VInt n);
              ("h"%string,
               Decorators.cls_getattr cls "h"
                 (Obj.VArray (Obj.zeros [n; 1%Z])));
              ("J"%string,
               Decorators.cls_getattr cls "J"
                 (Obj.VArray (Obj.zeros [n; n])));
              ("_connections"%string, Obj.VDict)] a.
Proof.
  intros Hd Hn Hh HJ. apply distinct_NoDup in Hd.
  destruct (@pcircuit_new_attributes n cls Hd id Hh HJ)
    as (attrs & Hrun & _ & Hrest).
  eexists _, attrs. split; [now apply pcircuit_accepts |].
  split; [exact Hrun | exact Hrest].
Qed.

(** X15 on the gate of the docstring: three units, no connection, and no
    attribute called [ports]. *)
Lemma X15_instance_attributes_witness :
  exists pc attrs,
    Decorators.pcircuit 3 PslExamples.ANDGate = Exn.Ok pc
    /\ Decorators.pcircuit_new pc 4 = Exn.Ok (Obj.VObject 4 attrs)
    /\ Obj.dict_get attrs "n_pbits" = Some (Obj.VInt 3)
    /\ Obj.dict_get attrs "_connections" = Some Obj.VDict
    /\ Obj.dict_get attrs "ports" = None.
Proof.
  destruct (X15_instance_attributes (n := 3) PslExamples.ANDGate 4
              eq_refl eq_refl eq_refl eq_refl)
    as (pc & attrs & Hpc & Hrun & Hrest).
  exists pc, attrs. split; [exact Hpc |]. split; [exact Hrun |].
  assert (Hnot : forall a,
             existsb (String.eqb a)
               (Obj.keys (Decorators.ports_in
                            (Obj.cls_dict PslExamples.ANDGate))) = false ->
             ~ In a (Obj.keys (Decorators.ports_in
                                 (Obj.cls_dict PslExamples.ANDGate)))).
  { intros a Ha Hin. apply existsb_eqb_In in Hin. congruence. }
  split; [| split].
  - rewrite (Hrest _ (Hnot "n_pbits"%string eq_refl)). reflexivity.
  - rewrite (Hrest _ (Hnot "_connections"%string eq_refl)). reflexivity.
  - rewrite (Hrest _ (Hnot "ports"%string eq_refl)). reflexivity.
Defined.

(** X16.  Whatever a [pcircuit] class returns from [__new__] has an
    attribute [n_pbits], also when a port of that name has replaced the unit
    count; so a [module] instance that holds it in an attribute registers
    it. *)
Theorem X16_instances_are_registered
    (n : Z) (cls : Obj.pyclass) (pc : Decorators.pcircuit_class)
    (id : nat) (v : Obj.value) :
  Obj.distinct (Obj.keys (Obj.cls_dict cls)) = true ->
  Decorators.pcircuit n cls = Exn.Ok pc ->
  Decorators.pcircuit_new pc id = Exn.Ok v ->
  Obj.hasattr v "n_pbits" = true
  /\ forall self : Obj.dict Obj.value,
       In v (Obj.values self) -> In v (Decorators.circuits_of self).
Proof.
  intros Hd Hpc Hnew. apply distinct_NoDup in Hd.
  assert (Hhas : Obj.hasattr v "n_pbits" = true).
  { apply (@pcircuit_inv n cls Hd) in Hpc. subst pc.
    destruct (@pcircuit_new_inv _ _ _ Hnew) as [Hh HJ]. simpl in Hh, HJ.
    destruct (@pcircuit_new_attributes n cls Hd id Hh HJ)
      as (attrs & Hrun & Hports & Hrest).
    rewrite Hrun in Hnew. injection Hnew as <-. simpl.
    destruct (in_dec string_dec "n_pbits"%string
                (Obj.keys (Decorators.ports_in (Obj.cls_dict cls))))
      as [Hin | Hnot].
    - unfold Obj.keys in Hin.
      apply in_map_iff in Hin as ([nm p] & Hnm & Hin). simpl in Hnm.
      subst nm. apply In_nth_error in Hin as [k Hk].
      now rewrite (Hports k _ p Hk).
    - now rewrite (Hrest _ Hnot). }
  split; [exact Hhas |].
  intros self Hin. unfold Decorators.circuits_of.
  apply filter_In. split; [exact Hin | exact Hhas].
Qed.

(** X16 on the gate of the docstring. *)
Lemma X16_instances_are_registered_witness :
  Obj.hasattr (PslExamples.and_gate 1) "n_pbits" = true
  /\ In (PslExamples.and_gate 1)
        (Decorators.circuits_of
           [("size"%string, Obj.VInt 2);
            ("gate1"%string, PslExamples.and_gate 1)]).
Proof.
  destruct (Decorators.pcircuit 3 PslExamples.ANDGate) as [pc | e] eqn:Hpc;
    [| discriminate Hpc].
  destruct (Decorators.pcircuit_new pc 1) as [v | e] eqn:Hnew.
  - assert (Hv : PslExamples.and_gate 1 = v).
    { unfold PslExamples.and_gate. now rewrite Hpc, Hnew. }
    rewrite Hv.
    destruct (@X16_instances_are_registered 3 PslExamples.ANDGate pc
                1 v eq_refl Hpc Hnew) as [Hhas Hreg].
    split; [exact Hhas |]. apply Hreg. simpl. right. now left.
  - exfalso.
    assert (Hcomp : match Decorators.pcircuit 3 PslExamples.ANDGate with
                    | Exn.Ok pc0 =>
                        match Decorators.pcircuit_new pc0 1 with
                        | Exn.Ok _ => True
                        | Exn.Raise _ => False
                        end
                    | Exn.Raise _ => False
                    end) by exact I.
    rewrite Hpc, Hnew in Hcomp. exact Hcomp.
Defined.

(** ** The exception an ill-shaped circuit raises *)

Section FirstUnit.
Import Py Numpy Solver.

Variable self : CaSuDaSolver.
Variable c : PCircuit.

Lemma bind_raise {A B} (m : M A) (k : A -> M B) (g : rng) (e : exn) :
  m g = Raise e -> bind m k g = Raise e.
Proof. intros H. unfold bind. now rewrite H. Qed.

(** [solve] raises what the first round of the loop raises. *)
Lemma solve_raises_first_round (d : nat -> R) (p0 : nat) (e : exn) :
  (0 < Nt self)%nat ->
  (forall m st2 st3 st4 g,
     length m = n_pbits c ->
     loop_body self c (seq 0 (n_pbits c)) 0 (m, st2, st3, st4) g = Raise e) ->
  solve self c (mkRng d p0) = Raise e.
Proof.
  intros HNt Hbody. unfold solve.
  rewrite (bind_ok _ (initial_m_spins c d p0)).
  destruct (Nt self) as [|k]; [lia |].
  apply bind_raise. cbn [for_range]. apply bind_raise.
  apply Hbody. apply length_initial_spins.
Qed.

(** Line 24 raises what its first unit raises. *)
Lemma input_biases_raises_first (m : list R) (g : rng) (e : exn) (k : nat) :
  n_pbits c = S k ->
  (row <~ getitem (J c) 0 ;;
   dv <~ dot m row ;;
   hi <~ getitem (h c) 0 ;;
   ret (i0 self * (dv + hi))%R)%py g = Raise e ->
  input_biases self c (seq 0 (n_pbits c)) m g = Raise e.
Proof.
  intros Hn H. unfold input_biases. rewrite Hn. simpl comprehension.
  now apply bind_raise.
Qed.

End FirstUnit.

(** X17.  With at least one step and at least one unit, a circuit whose [J]
    has no row, or whose [h] has no entry under a first row of [J] of the
    right length, makes [solve] raise [IndexError]; a first row of [J]
    whose length is not [n_pbits] makes it raise [ValueError], from
    [np.dot]. *)
Theorem X17_first_unit_errors
    (self : Solver.CaSuDaSolver) (c : Solver.PCircuit)
    (d : nat -> R) (p0 : nat) :
  (0 < Solver.Nt self)%nat -> (0 < Solver.n_pbits c)%nat ->
  (Solver.J c = [] ->
     Solver.solve self c (Py.mkRng d p0) = Py.Raise Py.IndexError)
  /\ (forall row rest, Solver.J c = row :: rest ->
        length row <> Solver.n_pbits c ->
        Solver.solve self c (Py.mkRng d p0) = Py.Raise Py.ValueError)
  /\ (forall row rest, Solver.J c = row :: rest ->
        length row = Solver.n_pbits c -> Solver.h c = [] ->
        Solver.solve self c (Py.mkRng d p0) = Py.Raise Py.IndexError).
Proof.
  intros HNt Hn.
  destruct (Solver.n_pbits c) as [|k] eqn:En; [lia |].
  split; [| split].
  - intros HJ. apply solve_raises_first_round; [exact HNt |].
    intros m st2 st3 st4 g Hm. unfold Solver.loop_body.
    apply bind_raise. apply input_biases_raises_first with (k := k);
      [exact En |].
    rewrite HJ. reflexivity.
  - intros row rest HJ Hrow. apply solve_raises_first_round; [exact HNt |].
    intros m st2 st3 st4 g Hm. unfold Solver.loop_body.
    apply bind_raise. apply input_biases_raises_first with (k := k);
      [exact En |].
    rewrite HJ. unfold Py.bind, Py.lift, Py.getitem. simpl nth_error.
    unfold Numpy.dot. rewrite Hm, En.
    assert (E : Nat.eqb (S k) (length row) = false)
      by (apply Nat.eqb_neq; congruence).
    now rewrite E.
  - intros row rest HJ Hrow Hh. apply solve_raises_first_round; [exact HNt |].
    intros m st2 st3 st4 g Hm. unfold Solver.loop_body.
    apply bind_raise. apply input_biases_raises_first with (k := k);
      [exact En |].
    rewrite HJ, Hh. unfold Py.bind, Py.lift, Py.getitem. simpl nth_error.
    unfold Numpy.dot. rewrite Hm, Hrow, En, Nat.eqb_refl. reflexivity.
Qed.

(** X17 on a circuit of two units whose [J] is one row of one entry. *)
Lemma X17_first_unit_errors_witness :
  Solver.solve Examples.mux_solver Examples.ragged
    (Py.mkRng Examples.quarter_tape 0)
  = Py.Raise Py.ValueError.
Proof.
  assert (HNt : (0 < Solver.Nt Examples.mux_solver)%nat)
    by (apply Nat.ltb_lt; reflexivity).
  assert (Hn : (0 < Solver.n_pbits Examples.ragged)%nat)
    by (apply Nat.ltb_lt; reflexivity).
  destruct (X17_first_unit_errors Examples.mux_solver Examples.ragged
              Examples.quarter_tape 0 HNt Hn) as (_ & Hrow & _).
  apply (Hrow [1%R] []); [reflexivity | simpl; discriminate].
Defined.
